(** * ryanair-dashboard: the fare-polling and deal-detection cycle

    A shallow embedding of [src/index.js]: the promise chain of [fetch]
    (request, extraction, reduction, trend classification, deal evaluation,
    reporting, rescheduling), the part of [Dashboard.plot] that records the
    plotted prices, the timer-driven polling loop, and the startup code: the
    option mapping, the settings panel, and the airport markers with the
    blinking map of [Dashboard.waypoint].

    JavaScript numbers are IEEE 754 binary64 values; they are modelled by the
    Standard Library's [spec_float] at precision 53 and maximal exponent 1024,
    so NaN, the infinities, the signed zeros and rounding are those of the
    language. *)

From Stdlib Require Import ZArith List Bool String Lia.
From Stdlib Require Import Floats.SpecFloat.
Import ListNotations.

(* ===================================================================== *)
(** ** JavaScript numbers *)
(* ===================================================================== *)

Definition num : Type := spec_float.

Module Num.

Definition prec : Z := 53.
Definition emax : Z := 1024.

Definition NaN : num := S754_nan.
Definition Infinity : num := S754_infinity false.
Definition NegInfinity : num := S754_infinity true.
Definition zero : num := S754_zero false.

(** An integer literal such as [1000] or [60]. *)
Definition of_Z (z : Z) : num := binary_normalize prec emax z 0 false.

Definition add (x y : num) : num := SFadd prec emax x y.
Definition sub (x y : num) : num := SFsub prec emax x y.
Definition mul (x y : num) : num := SFmul prec emax x y.

(** [x < y], [x <= y] and [x === y] on numbers; all three are false as
    soon as one side is NaN, and the two zeros are equal. *)
Definition ltb (x y : num) : bool := SFltb x y.
Definition leb (x y : num) : bool := SFleb x y.
Definition eqb (x y : num) : bool := SFeqb x y.

(** [Math.abs]. *)
Definition abs (x : num) : num := SFabs x.

(** The global [isNaN] and [isFinite] on a number. *)
Definition isNaN (x : num) : bool :=
  match x with S754_nan => true | _ => false end.

Definition isFinite (x : num) : bool :=
  match x with
  | S754_zero _ | S754_finite _ _ _ => true
  | S754_infinity _ | S754_nan => false
  end.

Definition isInfinite (x : num) : bool :=
  match x with S754_infinity _ => true | _ => false end.

(** ToBoolean on a number: 0, -0 and NaN are falsy. *)
Definition truthy (x : num) : bool :=
  match x with
  | S754_zero _ | S754_nan => false
  | S754_infinity _ | S754_finite _ _ _ => true
  end.

(** One step of [Math.min]: NaN is contagious and -0 is below +0. *)
Definition min2 (lowest x : num) : num :=
  match lowest, x with
  | S754_nan, _ | _, S754_nan => S754_nan
  | S754_zero false, S754_zero true => x
  | _, _ => if ltb x lowest then x else lowest
  end.

(** [Math.min(...xs)] on numbers: +Infinity for no argument. *)
Definition min_list (xs : list num) : num := fold_left min2 xs Infinity.

End Num.

(* ===================================================================== *)
(** ** JavaScript values that reach the cycle *)
(* ===================================================================== *)

(** The command-line options, the previous-fare globals and the [amount]
    fields of a response hold [undefined], [null], a boolean or a number.
    (Strings are not modelled: a threshold or an amount that is a string is
    outside this development.) *)
Inductive value : Type :=
| VUndefined
| VNull
| VBool (b : bool)
| VNum (x : num).

(** ToNumber. *)
Definition to_number (v : value) : num :=
  match v with
  | VUndefined => Num.NaN
  | VNull => Num.zero
  | VBool true => Num.of_Z 1
  | VBool false => Num.zero
  | VNum x => x
  end.

(** ToBoolean. *)
Definition truthy (v : value) : bool :=
  match v with
  | VUndefined | VNull => false
  | VBool b => b
  | VNum x => Num.truthy x
  end.

(** [a && b] and [a || b] return one of their operands. *)
Definition js_and (a b : value) : value := if truthy a then b else a.
Definition js_or (a b : value) : value := if truthy a then a else b.

(** [a - b], [a * b] and [a <= b] on operands that are not strings. *)
Definition js_sub (a b : value) : num := Num.sub (to_number a) (to_number b).
Definition js_mul (a b : value) : num := Num.mul (to_number a) (to_number b).
Definition js_le (a b : value) : bool := Num.leb (to_number a) (to_number b).

(** [Math.min(...vs)]: every argument goes through ToNumber first. *)
Definition Math_min (vs : list value) : num := Num.min_list (map to_number vs).

(* ===================================================================== *)
(** ** Configuration and process-wide state *)
(* ===================================================================== *)

(** The options read from [argv] that the cycle uses, and whether the four
    Twilio environment variables are all set.  [oneWay] and
    [isTwilioConfigured] are only ever tested for truthiness. *)
Record config : Type := {
  individualDealPrice : value;
  totalDealPrice : value;
  interval : value;
  oneWay : bool;
  isTwilioConfigured : bool
}.

(** [prevLowestOutboundFare], [prevLowestReturnFare] and the two arrays of
    the [fares] object. *)
Record globals : Type := {
  prevLowestOutboundFare : value;
  prevLowestReturnFare : value;
  fares_outbound : list value;
  fares_return : list value
}.

(** The state when the script starts: both [var]s are undefined and both
    arrays are empty. *)
Definition initial : globals :=
  {| prevLowestOutboundFare := VUndefined;
     prevLowestReturnFare := VUndefined;
     fares_outbound := [];
     fares_return := [] |}.

(** Time constants. *)
Definition TIME_MS : num := Num.of_Z 1.
Definition TIME_SEC : num := Num.mul TIME_MS (Num.of_Z 1000).
Definition TIME_MIN : num := Num.mul TIME_SEC (Num.of_Z 60).

(* ===================================================================== *)
(** ** The availability response *)
(* ===================================================================== *)

(** The part of the parsed JSON document that [fetch] reads:
    [data.trips[i].dates[0].flights[0].regularFare.fares[0].amount].
    Reading a property of [undefined] throws a TypeError whether an array
    on the path is absent or empty, so both are the empty list here. *)
Record fare : Type := { amount : value }.
Record regular_fare : Type := { fares : list fare }.
Record flight : Type := { regularFare : option regular_fare }.
Record date_entry : Type := { flights : list flight }.
Record trip : Type := { dates : list date_entry }.
Record response : Type := { trips : list trip }.

(** What the promise chain can be rejected with: the request failed, or a
    property of [undefined] was read (the string names the property read
    after an empty array; nothing below depends on the message). *)
Inductive error : Type :=
| RequestError (message : string)
| TypeError (property : string).

(** What [rp(options)] settles to. *)
Inductive reply : Type :=
| Rejected (message : string)
| Resolved (data : response).

(** [data.trips[i].dates[0].flights[0].regularFare.fares[0].amount]. *)
Definition fare_amount (data : response) (i : nat) : error + value :=
  match nth_error (trips data) i with
  | None => inl (TypeError "dates")
  | Some t =>
    match nth_error (dates t) 0 with
    | None => inl (TypeError "flights")
    | Some d =>
      match nth_error (flights d) 0 with
      | None => inl (TypeError "regularFare")
      | Some f =>
        match regularFare f with
        | None => inl (TypeError "fares")
        | Some rf =>
          match nth_error (fares rf) 0 with
          | None => inl (TypeError "amount")
          | Some fa => inr (amount fa)
          end
        end
      end
    end
  end.

(* ===================================================================== *)
(** ** What a cycle does to the outside *)
(* ===================================================================== *)

(** The text after the fare in a log line: empty, or one of the three
    coloured annotations. *)
Inductive annotation : Type :=
| NoAnnotation
| Down (by_ : num)
| Up (by_ : num)
| NoChange.

(** An element of [[fare, diffString]] before [.filter(i => i)]. *)
Inductive piece : Type :=
| PFare (x : num)
| PAnnotation (a : annotation).

Definition piece_truthy (p : piece) : bool :=
  match p with
  | PFare x => Num.truthy x
  | PAnnotation NoAnnotation => false
  | PAnnotation _ => true
  end.

(** The lines handed to [dashboard.log]. *)
Inductive logline : Type :=
| ErrorLine (e : error)
| DealAlert (total outbound return_ : num)
| LowestOutbound (shown : list piece)
| LowestReturn (shown : list piece).

(** The calls a cycle makes on its collaborators, in order. *)
Inductive effect : Type :=
| Log (lines : list logline)
| Plot (outbound : num) (return_ : option num)
| SendTextMessage (total outbound return_ : num)
| Render
| SetTimeout (delay : num).

(* ===================================================================== *)
(** ** A promise chain: state, effects and rejection *)
(* ===================================================================== *)

Record result (A : Type) : Type := {
  settled : error + A;
  final : globals;
  trace : list effect
}.

Arguments Build_result {A} _ _ _.
Arguments settled {A} _.
Arguments final {A} _.
Arguments trace {A} _.

Definition M (A : Type) : Type := globals -> result A.

Definition ret {A} (a : A) : M A :=
  fun g => {| settled := inr a; final := g; trace := [] |}.

Definition throw {A} (e : error) : M A :=
  fun g => {| settled := inl e; final := g; trace := [] |}.

(** [.then]: the callback runs only if the promise was fulfilled. *)
Definition bind {A B} (m : M A) (k : A -> M B) : M B :=
  fun g =>
    let r := m g in
    match settled r with
    | inl e => {| settled := inl e; final := final r; trace := trace r |}
    | inr a =>
      let r' := k a (final r) in
      {| settled := settled r'; final := final r';
         trace := trace r ++ trace r' |}
    end.

(** [.catch]: the handler runs only if the promise was rejected. *)
Definition catch {A} (m : M A) (h : error -> M A) : M A :=
  fun g =>
    let r := m g in
    match settled r with
    | inl e =>
      let r' := h e (final r) in
      {| settled := settled r'; final := final r';
         trace := trace r ++ trace r' |}
    | inr a => r
    end.

Definition get : M globals :=
  fun g => {| settled := inr g; final := g; trace := [] |}.

Definition modify (f : globals -> globals) : M unit :=
  fun g => {| settled := inr tt; final := f g; trace := [] |}.

Definition emit (e : effect) : M unit :=
  fun g => {| settled := inr tt; final := g; trace := [e] |}.

Definition when (b : bool) (m : M unit) : M unit := if b then m else ret tt.

Declare Scope promise_scope.
Delimit Scope promise_scope with promise.
Notation "x <- m ;; k" := (bind m (fun x => k))
  (at level 61, m at next level, right associativity) : promise_scope.
Notation "m ;; k" := (bind m (fun _ => k))
  (at level 61, right associativity) : promise_scope.
Open Scope promise_scope.

(* ===================================================================== *)
(** ** The cycle *)
(* ===================================================================== *)

Definition dashboard_log (lines : list logline) : M unit := emit (Log lines).
Definition dashboard_plot (outbound : num) (return_ : option num) : M unit :=
  emit (Plot outbound return_).
Definition dashboard_render : M unit := emit Render.
Definition sendTextMessage (total outbound return_ : num) : M unit :=
  emit (SendTextMessage total outbound return_).
Definition setTimeout_fetch (delay : num) : M unit := emit (SetTimeout delay).

(** [rp(options)]: the request promise, fulfilled with the parsed body or
    rejected. *)
Definition rp (r : reply) : M response :=
  match r with
  | Rejected message => throw (RequestError message)
  | Resolved data => ret data
  end.

(** Reading a fare out of the response throws when the path is missing. *)
Definition read_amount (data : response) (i : nat) : M value :=
  match fare_amount data i with
  | inl e => throw e
  | inr v => ret v
  end.

Definition push_outbound (v : value) (g : globals) : globals :=
  {| prevLowestOutboundFare := prevLowestOutboundFare g;
     prevLowestReturnFare := prevLowestReturnFare g;
     fares_outbound := fares_outbound g ++ [v];
     fares_return := fares_return g |}.

Definition push_return (v : value) (g : globals) : globals :=
  {| prevLowestOutboundFare := prevLowestOutboundFare g;
     prevLowestReturnFare := prevLowestReturnFare g;
     fares_outbound := fares_outbound g;
     fares_return := fares_return g ++ [v] |}.

(** The second callback: push the listed prices on the [fares] arrays. *)
Definition extract (cfg : config) (data : response) : M unit :=
  outPrice <- read_amount data 0 ;;
  modify (push_outbound outPrice) ;;
  when (negb (oneWay cfg))
    (inPrice <- read_amount data 1 ;;
     modify (push_return inPrice)).

(** The constants and variables the third callback computes before it
    touches anything outside. *)
Record cycle : Type := {
  lowestOutboundFare : num;
  lowestReturnFare : num;
  outboundFareDiff : num;
  returnFareDiff : num;
  outboundFareDiffString : annotation;
  returnFareDiffString : annotation;
  faresAreValid : bool
}.

(** The [if (!isNaN(outboundFareDiff) && !isNaN(returnFareDiff))] test. *)
Definition diffs_are_numbers (outDiff retDiff : num) : bool :=
  negb (Num.isNaN outDiff) && negb (Num.isNaN retDiff).

Definition classify (cfg : config) (g : globals) : cycle :=
  let lowestOutbound := Math_min (fares_outbound g) in
  let lowestReturn :=
    if oneWay cfg then Num.zero else Math_min (fares_return g) in
  let outDiff := js_sub (prevLowestOutboundFare g) (VNum lowestOutbound) in
  let retDiff :=
    if oneWay cfg then Num.zero
    else js_sub (prevLowestReturnFare g) (VNum lowestReturn) in
  let inside := diffs_are_numbers outDiff retDiff in
  {| lowestOutboundFare := lowestOutbound;
     lowestReturnFare := lowestReturn;
     outboundFareDiff := outDiff;
     returnFareDiff := retDiff;
     outboundFareDiffString :=
       if inside then
         if Num.ltb Num.zero outDiff then Down (Num.abs outDiff)
         else if Num.ltb outDiff Num.zero then Up (Num.abs outDiff)
         else if Num.eqb outDiff Num.zero then NoChange
         else NoAnnotation
       else NoAnnotation;
     returnFareDiffString :=
       if inside then
         if Num.ltb Num.zero retDiff && negb (oneWay cfg)
         then Down (Num.abs retDiff)
         else if Num.ltb retDiff Num.zero then Up (Num.abs retDiff)
         else if Num.eqb retDiff Num.zero then NoChange
         else NoAnnotation
       else NoAnnotation;
     faresAreValid :=
       if inside then
         if negb (Num.isFinite outDiff) || negb (Num.isFinite retDiff)
         then false else true
       else true |}.

(** [fares.outbound = []; fares.return = []]. *)
Definition clear_fares (g : globals) : globals :=
  {| prevLowestOutboundFare := prevLowestOutboundFare g;
     prevLowestReturnFare := prevLowestReturnFare g;
     fares_outbound := [];
     fares_return := [] |}.

(** [prevLowestOutboundFare = lowestOutboundFare] and the same for the
    return leg. *)
Definition store_previous (c : cycle) (g : globals) : globals :=
  {| prevLowestOutboundFare := VNum (lowestOutboundFare c);
     prevLowestReturnFare := VNum (lowestReturnFare c);
     fares_outbound := fares_outbound g;
     fares_return := fares_return g |}.

(** The expression bound to [awesomeDealIsAwesome]. *)
Definition awesomeDealIsAwesome (cfg : config) (c : cycle) : value :=
  js_or
    (js_and (totalDealPrice cfg)
       (VBool (js_le (VNum (Num.add (lowestOutboundFare c) (lowestReturnFare c)))
                 (totalDealPrice cfg))))
    (js_and (individualDealPrice cfg)
       (VBool (js_le (VNum (lowestOutboundFare c)) (individualDealPrice cfg)
               || js_le (VNum (lowestReturnFare c)) (individualDealPrice cfg)))).

(** [[fare, diffString].filter(i => i)]. *)
Definition shown (x : num) (a : annotation) : list piece :=
  filter piece_truthy [PFare x; PAnnotation a].

(** The third callback. *)
Definition report (cfg : config) : M unit :=
  g <- get ;;
  let c := classify cfg g in
  modify clear_fares ;;
  when (faresAreValid c)
    (modify (store_previous c) ;;
     when (truthy (awesomeDealIsAwesome cfg c))
       (let total := Num.add (lowestOutboundFare c) (lowestReturnFare c) in
        dashboard_log
          [DealAlert total (lowestOutboundFare c) (lowestReturnFare c)] ;;
        when (isTwilioConfigured cfg)
          (sendTextMessage total (lowestOutboundFare c) (lowestReturnFare c))) ;;
     if oneWay cfg then
       dashboard_log
         [LowestOutbound
            (shown (lowestOutboundFare c) (outboundFareDiffString c))] ;;
       dashboard_plot (lowestOutboundFare c) None
     else
       dashboard_log
         [LowestOutbound
            (shown (lowestOutboundFare c) (outboundFareDiffString c));
          LowestReturn
            (shown (lowestReturnFare c) (returnFareDiffString c))] ;;
       dashboard_plot (lowestOutboundFare c) (Some (lowestReturnFare c))) ;;
  dashboard_render ;;
  setTimeout_fetch (js_mul (interval cfg) (VNum TIME_MIN)).

(** [fetch]: the whole chain, for one settlement of the request. *)
Definition fetch (cfg : config) (r : reply) : M unit :=
  catch
    (data <- rp r ;;
     extract cfg data ;;
     report cfg)
    (fun err => dashboard_log [ErrorLine err]).

(* ===================================================================== *)
(** ** The polling loop *)
(* ===================================================================== *)

Definition is_timeout (e : effect) : bool :=
  match e with SetTimeout _ => true | _ => false end.

(** Whether a cycle armed the timer that runs [fetch] again. *)
Definition rescheduled (tr : list effect) : bool := existsb is_timeout tr.

(** The script calls [fetch()] once; every later call is made by the timer
    the previous call armed.  [replies] are the settlements of the
    successive requests. *)
Fixpoint poll (cfg : config) (replies : list reply) (g : globals)
  : globals * list effect :=
  match replies with
  | [] => (g, [])
  | r :: rest =>
    let out := fetch cfg r g in
    if rescheduled (trace out) then
      let '(g', tr) := poll cfg rest (final out) in
      (g', trace out ++ tr)
    else (final out, trace out)
  end.

(** The states in which a cycle can start. *)
Inductive reachable (cfg : config) : globals -> Prop :=
| reachable_initial : reachable cfg initial
| reachable_next : forall g r,
    reachable cfg g ->
    rescheduled (trace (fetch cfg r g)) = true ->
    reachable cfg (final (fetch cfg r g)).

(* ===================================================================== *)
(** ** [Dashboard]: the price graph *)
(* ===================================================================== *)

Module Dashboard.

(** The [y] arrays of [this.graphs]; [graphs.return] is created by the
    constructor only for a round trip. *)
Record graphs : Type := {
  outbound_y : list num;
  return_y : option (list value)
}.

Definition create (oneWay : bool) : graphs :=
  {| outbound_y := [];
     return_y := if oneWay then None else Some [] |}.

(** [plot(prices)]; [prices.return] is undefined when the property is
    absent.  The constructor and [plot] read the same [oneWay], so on a round
    trip the return graph always exists. *)
Definition plot (oneWay : bool) (outbound : num) (return_ : option num)
           (gr : graphs) : graphs :=
  {| outbound_y := outbound_y gr ++ [outbound];
     return_y :=
       if oneWay then return_y gr
       else
         match return_y gr with
         | Some ys =>
           Some (ys ++ [match return_ with
                        | Some x => VNum x
                        | None => VUndefined
                        end])
         | None => None
         end |}.

(** Replaying the [plot] calls of a trace on the graphs. *)
Definition replay (oneWay : bool) (tr : list effect) (gr : graphs) : graphs :=
  fold_left
    (fun acc e =>
       match e with
       | Plot o r => plot oneWay o r acc
       | _ => acc
       end)
    tr gr.

End Dashboard.

(* ===================================================================== *)
(** ** Observations on a cycle *)
(* ===================================================================== *)

Definition is_deal_line (l : logline) : bool :=
  match l with DealAlert _ _ _ => true | _ => false end.

Definition is_outbound_line (l : logline) : bool :=
  match l with LowestOutbound _ => true | _ => false end.

Definition is_return_line (l : logline) : bool :=
  match l with LowestReturn _ => true | _ => false end.

Definition logs (p : logline -> bool) (tr : list effect) : bool :=
  existsb (fun e => match e with Log lines => existsb p lines | _ => false end)
          tr.

(** The alert fired: the deal message was logged or sent as a text. *)
Definition alert_fired (tr : list effect) : bool :=
  existsb
    (fun e =>
       match e with
       | Log lines => existsb is_deal_line lines
       | SendTextMessage _ _ _ => true
       | _ => false
       end)
    tr.

(** The lowest fares were logged, respectively plotted. *)
Definition fares_logged (tr : list effect) : bool :=
  logs is_outbound_line tr || logs is_return_line tr.

Definition fares_plotted (tr : list effect) : bool :=
  existsb (fun e => match e with Plot _ _ => true | _ => false end) tr.

(** A return fare was plotted. *)
Definition return_plotted (tr : list effect) : bool :=
  existsb (fun e => match e with Plot _ (Some _) => true | _ => false end) tr.

(** The second callback ran to its end on [data]. *)
Definition extraction_succeeds (cfg : config) (data : response) (g : globals)
  : Prop :=
  settled (extract cfg data g) = inr tt.

(** The state the third callback starts in. *)
Definition extracted (cfg : config) (data : response) (g : globals) : globals :=
  final (extract cfg data g).

(** Both baselines of two states agree. *)
Definition same_baseline (g g' : globals) : Prop :=
  prevLowestOutboundFare g' = prevLowestOutboundFare g /\
  prevLowestReturnFare g' = prevLowestReturnFare g.

(** The cycle on reply [r] is rejected with [e]: by the request, or by the
    second callback. *)
Definition cycle_fails (cfg : config) (r : reply) (g : globals) (e : error)
  : Prop :=
  match r with
  | Rejected message => e = RequestError message
  | Resolved data => settled (extract cfg data g) = inl e
  end.

(** A log line shows a trend annotation after the fare. *)
Definition has_annotation (l : logline) : bool :=
  match l with
  | LowestOutbound ps | LowestReturn ps =>
    existsb (fun p => match p with PAnnotation _ => true | _ => false end) ps
  | _ => false
  end.

(** The configuration with another total, respectively individual, deal
    price. *)
Definition with_totalDealPrice (v : value) (cfg : config) : config :=
  {| individualDealPrice := individualDealPrice cfg;
     totalDealPrice := v;
     interval := interval cfg;
     oneWay := oneWay cfg;
     isTwilioConfigured := isTwilioConfigured cfg |}.

Definition with_individualDealPrice (v : value) (cfg : config) : config :=
  {| individualDealPrice := v;
     totalDealPrice := totalDealPrice cfg;
     interval := interval cfg;
     oneWay := oneWay cfg;
     isTwilioConfigured := isTwilioConfigured cfg |}.

(** A threshold that is absent or the number 0 (of either sign). *)
Definition zero_or_absent (v : value) : Prop :=
  v = VUndefined \/ exists s, v = VNum (S754_zero s).

(** A threshold was given on the command line. *)
Definition configured (v : value) : Prop := v <> VUndefined.

(** A response that lists one fare per trip. *)
Definition quote (v : value) : trip :=
  {| dates :=
       [ {| flights :=
              [ {| regularFare := Some {| fares := [ {| amount := v |} ] |} |} ]
         |} ] |}.

Definition euro (z : Z) : value := VNum (Num.of_Z z).

(* ===================================================================== *)
(** ** What the third callback emits *)
(* ===================================================================== *)

Definition alert_effects (cfg : config) (c : cycle) : list effect :=
  if truthy (awesomeDealIsAwesome cfg c) then
    let total := Num.add (lowestOutboundFare c) (lowestReturnFare c) in
    Log [DealAlert total (lowestOutboundFare c) (lowestReturnFare c)]
    :: (if isTwilioConfigured cfg
        then [SendTextMessage total (lowestOutboundFare c) (lowestReturnFare c)]
        else [])
  else [].

Definition fare_effects (cfg : config) (c : cycle) : list effect :=
  if oneWay cfg then
    [Log [LowestOutbound
            (shown (lowestOutboundFare c) (outboundFareDiffString c))];
     Plot (lowestOutboundFare c) None]
  else
    [Log [LowestOutbound
            (shown (lowestOutboundFare c) (outboundFareDiffString c));
          LowestReturn
            (shown (lowestReturnFare c) (returnFareDiffString c))];
     Plot (lowestOutboundFare c) (Some (lowestReturnFare c))].

Definition closing_effects (cfg : config) : list effect :=
  [Render; SetTimeout (js_mul (interval cfg) (VNum TIME_MIN))].

(* ===================================================================== *)
(** ** The order of binary64 values *)
(* ===================================================================== *)

(** A key whose lexicographic order is the order [<=] of the numbers that
    are not NaN: the class (negative infinity, negative, zero, positive,
    positive infinity), then exponent and mantissa, both negated below
    zero. *)
Definition order_key (x : num) : Z * Z * Z :=
  match x with
  | S754_infinity true => (-2, 0, 0)%Z
  | S754_finite true m e => (-1, - e, Zneg m)%Z
  | S754_zero _ | S754_nan => (0, 0, 0)%Z
  | S754_finite false m e => (1, e, Zpos m)%Z
  | S754_infinity false => (2, 0, 0)%Z
  end.

Definition key_le (a b : Z * Z * Z) : Prop :=
  let '(c1, e1, m1) := a in
  let '(c2, e2, m2) := b in
  (c1 < c2 \/ (c1 = c2 /\ (e1 < e2 \/ (e1 = e2 /\ m1 <= m2))))%Z.

(** Two numbers are the same binary64 value (the two zeros differ). *)
Definition identical (x y : num) : bool :=
  match x, y with
  | S754_zero s, S754_zero s' => Bool.eqb s s'
  | S754_infinity s, S754_infinity s' => Bool.eqb s s'
  | S754_nan, S754_nan => true
  | S754_finite s m e, S754_finite s' m' e' =>
    Bool.eqb s s' && Pos.eqb m m' && Z.eqb e e'
  | _, _ => false
  end.

(* ===================================================================== *)
(** ** Observations on a run of the polling loop *)
(* ===================================================================== *)

(** The request is fulfilled and the response has every fare the second
    callback reads. *)
Definition answers (cfg : config) (r : reply) : bool :=
  match r with
  | Rejected _ => false
  | Resolved data =>
    match fare_amount data 0 with
    | inl _ => false
    | inr _ =>
      oneWay cfg
      || match fare_amount data 1 with inl _ => false | inr _ => true end
    end
  end.

(** How many replies come before the first one that does not answer. *)
Fixpoint answered (cfg : config) (replies : list reply) : nat :=
  match replies with
  | [] => 0
  | r :: rest => if answers cfg r then S (answered cfg rest) else 0
  end.

(** The reply carries a finite amount for every leg the search reads. *)
Definition quotes_finite (cfg : config) (r : reply) : bool :=
  match r with
  | Rejected _ => false
  | Resolved data =>
    match fare_amount data 0 with
    | inl _ => false
    | inr a0 =>
      Num.isFinite (to_number a0)
      && (oneWay cfg
          || match fare_amount data 1 with
             | inl _ => false
             | inr a1 => Num.isFinite (to_number a1)
             end)
    end
  end.

Definition is_plot (e : effect) : bool :=
  match e with Plot _ _ => true | _ => false end.

(** Threshold [v'] is at least as generous as [v]: [v] is off (falsy), or
    [v] is positive and at most [v']. *)
Definition at_least_as_generous (v v' : value) : Prop :=
  truthy v = false \/
  (Num.ltb Num.zero (to_number v) = true /\ js_le v v' = true).



Definition count (p : effect -> bool) (tr : list effect) : nat :=
  List.length (filter p tr).

(** The last point handed to [dashboard.plot], after [before]. *)
Definition last_plot (before : option (num * option num)) (tr : list effect)
  : option (num * option num) :=
  fold_left
    (fun acc e => match e with Plot o r => Some (o, r) | _ => acc end)
    tr before.

(** The baseline is the point last plotted: nothing plotted and both
    globals undefined, or the outbound and return prices of the last plot
    (the constant 0 standing for the return price of a one-way search). *)
Definition baseline_is (cfg : config) (g : globals)
           (p : option (num * option num)) : Prop :=
  match p with
  | None =>
    prevLowestOutboundFare g = VUndefined /\
    prevLowestReturnFare g = VUndefined
  | Some (o, r) =>
    prevLowestOutboundFare g = VNum o /\
    (if oneWay cfg
     then r = None /\ prevLowestReturnFare g = VNum Num.zero
     else exists x, r = Some x /\ prevLowestReturnFare g = VNum x)
  end.

(** Text messages in a trace go with the deal alerts: when Twilio is
    configured every logged alert is followed at once by a text with the
    same figures, and there is no other text; when it is not, there is no
    text at all. *)
Inductive paired (twilio : bool) : list effect -> Prop :=
| paired_nil : paired twilio []
| paired_alert_text : forall t o r rest,
    twilio = true ->
    paired twilio rest ->
    paired twilio (Log [DealAlert t o r] :: SendTextMessage t o r :: rest)
| paired_alert : forall t o r rest,
    twilio = false ->
    paired twilio rest ->
    paired twilio (Log [DealAlert t o r] :: rest)
| paired_other : forall e rest,
    alert_fired [e] = false ->
    paired twilio rest ->
    paired twilio (e :: rest).

(** Every plot of a trace carries a return price exactly on a round trip. *)
Definition plots_match (oneWay : bool) (tr : list effect) : Prop :=
  Forall (fun e =>
            match e with
            | Plot _ None => oneWay = true
            | Plot _ (Some _) => oneWay = false
            | _ => True
            end) tr.

(* ===================================================================== *)
(** ** Startup: options, environment, settings panel *)
(* ===================================================================== *)



Module Argv.

(** The parsed command line, with [interval] already defaulted. *)
Record t : Type := {
  from : string;
  to : string;
  leaveDate : string;
  returnDate : option string;
  passengers : value;
  individualDealPrice : value;
  totalDealPrice : value;
  interval : value;
  oneWay : value
}.

End Argv.








(* ===================================================================== *)
(** ** Startup: the map *)
(* ===================================================================== *)

(** An entry of the [airports] table. *)
Record airport : Type := {
  iata : string;
  lat : num;
  lon : num
}.

Inductive color : Type := red | yellow.

(** The object handed to [dashboard.waypoint] (its [char] is always "X"). *)
Record marker : Type := {
  marker_lat : num;
  marker_lon : num;
  marker_color : color
}.

Module Map.

(** [dashboard.markers], whether [dashboard.blink] is set, the [visible]
    variable of the blink closure, and the markers the map widget holds. *)
Record state : Type := {
  markers : list marker;
  blink : bool;
  visible : bool;
  on_map : list marker
}.

(** After the constructor: no marker, no timer, an empty map.  [visible]
    does not exist yet; it starts as [true] when the timer is created. *)
Definition start : state :=
  {| markers := []; blink := false; visible := true; on_map := [] |}.

(** [waypoint(data)]. *)
Definition waypoint (data : marker) (st : state) : state :=
  if blink st then
    {| markers := markers st ++ [data]; blink := true;
       visible := visible st; on_map := on_map st |}
  else
    {| markers := markers st ++ [data]; blink := true;
       visible := true; on_map := on_map st |}.





End Map.

(** The body of [airports.forEach]: the [switch] on [airport.iata], whose
    first case is the origin. *)
Definition mark_airport (originAirport destinationAirport : string)
           (st : Map.state) (a : airport) : Map.state :=
  if String.eqb (iata a) originAirport then
    Map.waypoint {| marker_lat := lat a; marker_lon := lon a;
                    marker_color := red |} st
  else if String.eqb (iata a) destinationAirport then
    Map.waypoint {| marker_lat := lat a; marker_lon := lon a;
                    marker_color := yellow |} st
  else st.

Definition mark_airports (originAirport destinationAirport : string)
           (airports : list airport) (st : Map.state) : Map.state :=
  fold_left (mark_airport originAirport destinationAirport) airports st.

(** The airport's code is the origin or the destination, and the marker it
    gets: red when the code is the origin, yellow otherwise. *)
Definition is_endpoint (originAirport destinationAirport : string)
           (a : airport) : bool :=
  String.eqb (iata a) originAirport || String.eqb (iata a) destinationAirport.

Definition marker_for (originAirport : string) (a : airport) : marker :=
  {| marker_lat := lat a; marker_lon := lon a;
     marker_color := if String.eqb (iata a) originAirport then red else yellow |}.


(* ===================================================================== *)
(** ** Facts on binary64 arithmetic *)
(* ===================================================================== *)

Section Arithmetic.

Lemma sub_NaN_l x : Num.sub Num.NaN x = Num.NaN.
Proof. reflexivity. Qed.

Lemma js_sub_undefined v : js_sub VUndefined v = Num.NaN.
Proof. reflexivity. Qed.

Lemma Math_min_single v : Math_min [v] = to_number v.
Proof.
  unfold Math_min. cbn. destruct (to_number v) as [s|s| |s m e]; try reflexivity.
  - destruct s; reflexivity.
Qed.

Lemma ltb_zero_asym d : Num.ltb Num.zero d = true -> Num.ltb d Num.zero = false.
Proof. destruct d as [s|s| |s m e]; try destruct s; cbn; congruence. Qed.

Lemma eqb_zero_not_lt d :
  Num.eqb d Num.zero = true ->
  Num.ltb Num.zero d = false /\ Num.ltb d Num.zero = false.
Proof. destruct d as [s|s| |s m e]; try destruct s; cbn; auto; discriminate. Qed.

Lemma positive_truthy p :
  Num.ltb Num.zero p = true -> Num.truthy p = true /\ Num.leb Num.zero p = true.
Proof. destruct p as [s|s| |s m e]; try destruct s; cbn; auto; discriminate. Qed.

Lemma shr_1_nonneg mrs : (0 <= shr_m mrs)%Z -> (0 <= shr_m (shr_1 mrs))%Z.
Proof.
  destruct mrs as [m r s]. cbn.
  destruct m as [|p|p]; cbn; try lia; destruct p; cbn; lia.
Qed.

Lemma iter_shr_1_nonneg p : forall mrs,
  (0 <= shr_m mrs)%Z -> (0 <= shr_m (iter_pos shr_1 p mrs))%Z.
Proof.
  induction p as [p IH|p IH|]; intros mrs H; cbn.
  - apply IH, IH, shr_1_nonneg, H.
  - apply IH, IH, H.
  - apply shr_1_nonneg, H.
Qed.

Lemma shr_fexp_nonneg m e l :
  (0 <= m)%Z -> (0 <= shr_m (fst (shr_fexp Num.prec Num.emax m e l)))%Z.
Proof.
  intros H. unfold shr_fexp, shr.
  assert (H0 : (0 <= shr_m (shr_record_of_loc m l))%Z).
  { destruct l as [|[]]; cbn; exact H. }
  destruct (_ - e)%Z; cbn [fst]; auto using iter_shr_1_nonneg.
Qed.

Lemma round_nearest_even_nonneg m l :
  (0 <= m)%Z -> (0 <= round_nearest_even m l)%Z.
Proof.
  intros H. unfold round_nearest_even.
  destruct l as [|[]]; try destruct (Z.even m); lia.
Qed.

Lemma binary_round_aux_not_NaN s m e l :
  (0 <= m)%Z ->
  Num.isNaN (binary_round_aux Num.prec Num.emax s m e l) = false.
Proof.
  intros H. unfold binary_round_aux.
  pose proof (shr_fexp_nonneg m e l H) as H1.
  destruct (shr_fexp Num.prec Num.emax m e l) as [mrs' e']. cbn [fst] in H1.
  pose proof (shr_fexp_nonneg _ e' loc_Exact
                (round_nearest_even_nonneg _ (loc_of_shr_record mrs') H1)) as H2.
  destruct (shr_fexp Num.prec Num.emax _ e' loc_Exact) as [mrs'' e''].
  cbn [fst] in H2.
  destruct (shr_m mrs'') as [|p|p]; [reflexivity| |lia].
  destruct (Z.leb e'' _); reflexivity.
Qed.

Lemma binary_normalize_not_NaN m e s :
  Num.isNaN (binary_normalize Num.prec Num.emax m e s) = false.
Proof.
  destruct m as [|p|p]; cbn [binary_normalize]; [reflexivity| |];
    unfold binary_round;
    destruct (shl_align _ _ _) as [mz ez];
    apply binary_round_aux_not_NaN; lia.
Qed.

Lemma sub_finite_not_NaN x y :
  Num.isFinite x = true -> Num.isNaN y = false ->
  Num.isNaN (Num.sub x y) = false.
Proof.
  destruct x as [sx|sx| |sx mx ex]; try discriminate;
    destruct y as [sy|sy| |sy my ey]; try discriminate; intros _ _;
      try reflexivity.
  - destruct sx, sy; reflexivity.
  - apply binary_normalize_not_NaN.
Qed.

Lemma sub_finite_infinite x y :
  Num.isFinite x = true -> Num.isInfinite y = true ->
  Num.isNaN (Num.sub x y) = false /\ Num.isFinite (Num.sub x y) = false.
Proof.
  destruct x as [sx|sx| |sx mx ex]; try discriminate;
    destruct y as [sy|sy| |sy my ey]; try discriminate; intros _ _;
      split; reflexivity.
Qed.

End Arithmetic.

(* ===================================================================== *)
(** ** Running a promise chain *)
(* ===================================================================== *)

(** A result is determined by its three components. *)
Lemma result_ext {A} (r r' : result A) :
  settled r = settled r' -> final r = final r' -> trace r = trace r' ->
  r = r'.
Proof. destruct r, r'; cbn; intros -> -> ->; reflexivity. Qed.

Lemma bind_fulfilled {A B} (m : M A) (k : A -> M B) g a :
  settled (m g) = inr a ->
  settled (bind m k g) = settled (k a (final (m g))) /\
  final (bind m k g) = final (k a (final (m g))) /\
  trace (bind m k g) = trace (m g) ++ trace (k a (final (m g))).
Proof.
  intros H. unfold bind. cbv zeta. rewrite H. repeat split; reflexivity.
Qed.

Lemma bind_rejected {A B} (m : M A) (k : A -> M B) g e :
  settled (m g) = inl e ->
  settled (bind m k g) = inl e /\
  final (bind m k g) = final (m g) /\
  trace (bind m k g) = trace (m g).
Proof.
  intros H. unfold bind. cbv zeta. rewrite H. repeat split; reflexivity.
Qed.

(** A chain of two callbacks after a fulfilled first promise, with the
    logging handler at its end. *)
Lemma chain_resolved (E : response -> M unit) (R : M unit) data g :
  catch (bind (rp (Resolved data)) (fun d => bind (E d) (fun _ => R)))
        (fun err => dashboard_log [ErrorLine err]) g =
  let x := E data g in
  match settled x with
  | inl e =>
    {| settled := inr tt; final := final x;
       trace := trace x ++ [Log [ErrorLine e]] |}
  | inr _ =>
    let y := R (final x) in
    match settled y with
    | inl e =>
      {| settled := inr tt; final := final y;
         trace := (trace x ++ trace y) ++ [Log [ErrorLine e]] |}
    | inr _ =>
      {| settled := settled y; final := final y;
         trace := trace x ++ trace y |}
    end
  end.
Proof.
  unfold catch, bind. cbn [rp ret settled final trace app].
  destruct (settled (E data g)); cbn [settled final trace app].
  - reflexivity.
  - destruct (settled (R (final (E data g)))); reflexivity.
Qed.

(** The same chain when the second callback is fulfilled without effects
    and the third is fulfilled. *)
Lemma chain_fulfilled (E : response -> M unit) (R : M unit) data g :
  settled (E data g) = inr tt ->
  trace (E data g) = [] ->
  settled (R (final (E data g))) = inr tt ->
  final (catch (bind (rp (Resolved data)) (fun d => bind (E d) (fun _ => R)))
               (fun err => dashboard_log [ErrorLine err]) g) =
    final (R (final (E data g))) /\
  trace (catch (bind (rp (Resolved data)) (fun d => bind (E d) (fun _ => R)))
               (fun err => dashboard_log [ErrorLine err]) g) =
    trace (R (final (E data g))).
Proof.
  intros HE HT HR. rewrite chain_resolved. cbv zeta.
  destruct (E data g) as [s f t]. cbn [settled final trace] in *. subst s t.
  destruct (R f) as [s' f' t']. cbn [settled final trace] in *. subst s'.
  split; reflexivity.
Qed.

(** The third callback as one record. *)
Lemma report_run cfg g :
  let c := classify cfg g in
  settled (report cfg g) = inr tt /\
  final (report cfg g) =
    (if faresAreValid c then store_previous c (clear_fares g)
     else clear_fares g) /\
  trace (report cfg g) =
    (if faresAreValid c
     then alert_effects cfg c ++ fare_effects cfg c
     else []) ++ closing_effects cfg.
Proof.
  intros c.
  assert (Htail : forall g1,
             settled (bind dashboard_render
                        (fun _ => setTimeout_fetch
                                    (js_mul (interval cfg) (VNum TIME_MIN))) g1)
             = inr tt /\
             final (bind dashboard_render
                      (fun _ => setTimeout_fetch
                                  (js_mul (interval cfg) (VNum TIME_MIN))) g1)
             = g1 /\
             trace (bind dashboard_render
                      (fun _ => setTimeout_fetch
                                  (js_mul (interval cfg) (VNum TIME_MIN))) g1)
             = closing_effects cfg).
  { intros g1. repeat split; reflexivity. }
  set (tail := bind dashboard_render _) in Htail.
  assert (Hbody : forall (body : M unit) g1 g2 tr,
             settled (body g1) = inr tt -> final (body g1) = g2 ->
             trace (body g1) = tr ->
             settled (bind body (fun _ => tail) g1) = inr tt /\
             final (bind body (fun _ => tail) g1) = g2 /\
             trace (bind body (fun _ => tail) g1) = tr ++ closing_effects cfg).
  { intros body g1 g2 tr Hs Hf Ht.
    destruct (bind_fulfilled body (fun _ => tail) g1 tt Hs) as (-> & -> & ->).
    rewrite Hf, Ht. destruct (Htail g2) as (-> & -> & ->). auto. }
  unfold report.
  match goal with
  | |- context [bind get ?k g] =>
    destruct (bind_fulfilled get k g g eq_refl) as (-> & -> & ->)
  end.
  cbn [get settled final trace app]. cbv zeta. fold c.
  match goal with
  | |- context [bind (modify clear_fares) ?k g] =>
    destruct (bind_fulfilled (modify clear_fares) k g tt eq_refl)
      as (-> & -> & ->)
  end.
  cbn [modify settled final trace app].
  destruct (faresAreValid c); cbn [when].
  - apply Hbody.
    + destruct (truthy (awesomeDealIsAwesome cfg c));
        destruct (isTwilioConfigured cfg); destruct (oneWay cfg); reflexivity.
    + destruct (truthy (awesomeDealIsAwesome cfg c));
        destruct (isTwilioConfigured cfg); destruct (oneWay cfg); reflexivity.
    + unfold alert_effects, fare_effects.
      destruct (truthy (awesomeDealIsAwesome cfg c));
        destruct (isTwilioConfigured cfg); destruct (oneWay cfg); reflexivity.
  - apply Hbody; reflexivity.
Qed.

(* ===================================================================== *)
(** ** The shape of a cycle *)
(* ===================================================================== *)

Section Shape.

Variable cfg : config.

Lemma fetch_rejected message g :
  fetch cfg (Rejected message) g =
  {| settled := inr tt; final := g;
     trace := [Log [ErrorLine (RequestError message)]] |}.
Proof. reflexivity. Qed.

Lemma extract_trace data g : trace (extract cfg data g) = [].
Proof.
  unfold extract, bind, read_amount, when, modify, throw, ret.
  destruct (fare_amount data 0); cbn; [reflexivity|].
  destruct (oneWay cfg); cbn; [reflexivity|].
  destruct (fare_amount data 1); reflexivity.
Qed.

Lemma extract_baseline data g : same_baseline g (extracted cfg data g).
Proof.
  unfold same_baseline, extracted, extract, bind, read_amount, when, modify,
    throw, ret.
  destruct (fare_amount data 0); cbn; [tauto|].
  destruct (oneWay cfg); cbn; [tauto|].
  destruct (fare_amount data 1); cbn; tauto.
Qed.

(** What extraction leaves in the [fares] arrays when it succeeds. *)
Lemma extract_success data g :
  extraction_succeeds cfg data g ->
  exists a0,
    fare_amount data 0 = inr a0 /\
    fares_outbound (extracted cfg data g) = fares_outbound g ++ [a0] /\
    (if oneWay cfg
     then fares_return (extracted cfg data g) = fares_return g
     else exists a1,
         fare_amount data 1 = inr a1 /\
         fares_return (extracted cfg data g) = fares_return g ++ [a1]).
Proof.
  unfold extraction_succeeds, extracted, extract, bind, read_amount, when,
    modify, throw, ret.
  destruct (fare_amount data 0) as [e|a0]; cbn; [discriminate|].
  intros H. exists a0. split; [reflexivity|].
  destruct (oneWay cfg); cbn in *; [auto|].
  destruct (fare_amount data 1) as [e|a1]; cbn in *; [discriminate|].
  split; [reflexivity|]. exists a1. auto.
Qed.

(** The chain on a fulfilled request, in terms of its second and third
    callbacks. *)
Lemma fetch_resolved data g :
  fetch cfg (Resolved data) g =
  let x := extract cfg data g in
  match settled x with
  | inl e =>
    {| settled := inr tt; final := final x;
       trace := trace x ++ [Log [ErrorLine e]] |}
  | inr _ =>
    let y := report cfg (final x) in
    match settled y with
    | inl e =>
      {| settled := inr tt; final := final y;
         trace := (trace x ++ trace y) ++ [Log [ErrorLine e]] |}
    | inr _ =>
      {| settled := settled y; final := final y;
         trace := trace x ++ trace y |}
    end
  end.
Proof. unfold fetch. apply chain_resolved. Qed.

(** The third callback never throws. *)
Lemma report_settled g : settled (report cfg g) = inr tt.
Proof. apply (report_run cfg g). Qed.

Lemma fetch_extraction_failed data g e :
  settled (extract cfg data g) = inl e ->
  fetch cfg (Resolved data) g =
  {| settled := inr tt; final := extracted cfg data g;
     trace := [Log [ErrorLine e]] |}.
Proof.
  intros H. rewrite fetch_resolved. cbv zeta. rewrite H, extract_trace.
  reflexivity.
Qed.

Lemma fetch_extraction_succeeded data g :
  extraction_succeeds cfg data g ->
  final (fetch cfg (Resolved data) g) =
    final (report cfg (extracted cfg data g)) /\
  trace (fetch cfg (Resolved data) g) =
    trace (report cfg (extracted cfg data g)).
Proof.
  intros H. unfold fetch, extracted.
  apply chain_fulfilled;
    [exact H | apply extract_trace | apply report_settled].
Qed.

End Shape.

(* ===================================================================== *)
(** ** The third callback, step by step *)
(* ===================================================================== *)

Section Report.

Variable cfg : config.

Lemma report_valid g :
  faresAreValid (classify cfg g) = true ->
  final (report cfg g) = store_previous (classify cfg g) (clear_fares g) /\
  trace (report cfg g) =
    alert_effects cfg (classify cfg g) ++ fare_effects cfg (classify cfg g)
    ++ closing_effects cfg.
Proof.
  intros H. destruct (report_run cfg g) as (_ & Hf & Ht). cbv zeta in Hf, Ht.
  rewrite H in Hf, Ht. rewrite app_assoc. auto.
Qed.

Lemma report_invalid g :
  faresAreValid (classify cfg g) = false ->
  final (report cfg g) = clear_fares g /\
  trace (report cfg g) = closing_effects cfg.
Proof.
  intros H. destruct (report_run cfg g) as (_ & Hf & Ht). cbv zeta in Hf, Ht.
  rewrite H in Hf, Ht. auto.
Qed.

Lemma alert_fired_app tr1 tr2 :
  alert_fired (tr1 ++ tr2) = alert_fired tr1 || alert_fired tr2.
Proof. apply existsb_app. Qed.

Lemma alert_fired_alert_effects c :
  alert_fired (alert_effects cfg c) = truthy (awesomeDealIsAwesome cfg c).
Proof.
  unfold alert_effects.
  destruct (truthy (awesomeDealIsAwesome cfg c)); reflexivity.
Qed.

Lemma alert_fired_fare_effects c : alert_fired (fare_effects cfg c) = false.
Proof. unfold fare_effects. destruct (oneWay cfg); reflexivity. Qed.

(** In a valid cycle the alert fires exactly when the deal expression is
    truthy. *)
Lemma alert_fired_valid g :
  faresAreValid (classify cfg g) = true ->
  alert_fired (trace (report cfg g)) =
  truthy (awesomeDealIsAwesome cfg (classify cfg g)).
Proof.
  intros H. destruct (report_valid g H) as [_ ->].
  rewrite !alert_fired_app, alert_fired_alert_effects,
    alert_fired_fare_effects.
  cbn. now rewrite !orb_false_r.
Qed.

Lemma rescheduled_report g : rescheduled (trace (report cfg g)) = true.
Proof.
  destruct (faresAreValid (classify cfg g)) eqn:H.
  - destruct (report_valid g H) as [_ ->].
    unfold rescheduled. rewrite !existsb_app.
    cbn. now rewrite !orb_true_r.
  - destruct (report_invalid g H) as [_ ->]. reflexivity.
Qed.

Lemma report_fares_empty g :
  fares_outbound (final (report cfg g)) = [] /\
  fares_return (final (report cfg g)) = [].
Proof.
  destruct (faresAreValid (classify cfg g)) eqn:H.
  - destruct (report_valid g H) as [-> _]. split; reflexivity.
  - destruct (report_invalid g H) as [-> _]. split; reflexivity.
Qed.

(** A cycle that arms the timer went through the third callback. *)
Lemma rescheduled_inv r g :
  rescheduled (trace (fetch cfg r g)) = true ->
  exists data,
    r = Resolved data /\ extraction_succeeds cfg data g.
Proof.
  destruct r as [message|data].
  - rewrite fetch_rejected. cbn. discriminate.
  - intros H. exists data. split; [reflexivity|].
    unfold extraction_succeeds.
    destruct (settled (extract cfg data g)) as [e|[]] eqn:E; [|reflexivity].
    rewrite (fetch_extraction_failed cfg data g e E) in H. cbn in H.
    discriminate.
Qed.

(** Every cycle starts with both [fares] arrays empty. *)
Lemma reachable_fares_empty g :
  reachable cfg g -> fares_outbound g = [] /\ fares_return g = [].
Proof.
  induction 1 as [|g r Hg IH Hr].
  - split; reflexivity.
  - destruct (rescheduled_inv r g Hr) as (data & -> & Hx).
    destruct (fetch_extraction_succeeded cfg data g Hx) as [-> _].
    apply report_fares_empty.
Qed.

(** Outside the guarded block no annotation is computed. *)
Lemma trend_shape g :
  let c := classify cfg g in
  (diffs_are_numbers (outboundFareDiff c) (returnFareDiff c) = false ->
   faresAreValid c = true) /\
  (diffs_are_numbers (outboundFareDiff c) (returnFareDiff c) = false ->
   outboundFareDiffString c = NoAnnotation /\
   returnFareDiffString c = NoAnnotation).
Proof.
  unfold classify.
  cbn [outboundFareDiff returnFareDiff outboundFareDiffString
       returnFareDiffString faresAreValid].
  split; intros ->; auto.
Qed.

End Report.

(* ===================================================================== *)
(** ** Failed and invalid cycles *)
(* ===================================================================== *)

(** C1 (the code departs from it). A cycle whose request is rejected or whose
    extraction throws logs the error and leaves [prevLowestOutboundFare] and
    [prevLowestReturnFare] as they were; but the [.catch] handler arms no
    timer, so no further cycle runs: the polling loop stops with the error
    line, whatever replies would have followed. *)
Theorem failed_cycle_logs_and_stops cfg r g e :
  cycle_fails cfg r g e ->
  trace (fetch cfg r g) = [Log [ErrorLine e]] /\
  same_baseline g (final (fetch cfg r g)) /\
  rescheduled (trace (fetch cfg r g)) = false /\
  forall rest,
    poll cfg (r :: rest) g = (final (fetch cfg r g), [Log [ErrorLine e]]).
Proof.
  intros H.
  assert (Ht : trace (fetch cfg r g) = [Log [ErrorLine e]]).
  { destruct r as [message|data]; cbn in H.
    - subst e. reflexivity.
    - rewrite (fetch_extraction_failed cfg data g e H). reflexivity. }
  assert (Hb : same_baseline g (final (fetch cfg r g))).
  { destruct r as [message|data]; cbn in H.
    - rewrite fetch_rejected. split; reflexivity.
    - rewrite (fetch_extraction_failed cfg data g e H). cbn [final].
      apply extract_baseline. }
  repeat split; try apply Hb.
  - exact Ht.
  - rewrite Ht. reflexivity.
  - intros rest. cbn [poll]. rewrite Ht. reflexivity.
Qed.

Lemma failed_cycle_logs_and_stops_witness :
  let cfg := {| individualDealPrice := VUndefined; totalDealPrice := euro 100;
                interval := euro 30; oneWay := false;
                isTwilioConfigured := false |} in
  let later := Resolved {| trips := [quote (euro 50); quote (euro 40)] |} in
  poll cfg [Rejected "ETIMEDOUT"; later; later] initial =
  (initial, [Log [ErrorLine (RequestError "ETIMEDOUT")]]).
Proof.
  intros cfg later.
  destruct (failed_cycle_logs_and_stops cfg (Rejected "ETIMEDOUT") initial
              (RequestError "ETIMEDOUT") eq_refl) as (_ & _ & _ & H).
  exact (H [later; later]).
Defined.

(** C2, as stated, fails: with a baseline of 50 and 40 and a response that
    lists an infinite outbound amount, the outbound diff is not finite and the
    cycle is invalid, yet nothing is logged and nothing is plotted. *)
Lemma invalid_cycle_logs_nothing_counterexample :
  let cfg := {| individualDealPrice := VUndefined; totalDealPrice := euro 100;
                interval := euro 30; oneWay := false;
                isTwilioConfigured := false |} in
  let g := {| prevLowestOutboundFare := euro 50;
              prevLowestReturnFare := euro 40;
              fares_outbound := []; fares_return := [] |} in
  let data := {| trips := [quote (VNum Num.Infinity); quote (euro 40)] |} in
  let c := classify cfg (extracted cfg data g) in
  extraction_succeeds cfg data g /\
  Num.isFinite (outboundFareDiff c) = false /\
  faresAreValid c = false /\
  fares_logged (trace (fetch cfg (Resolved data) g)) = false /\
  fares_plotted (trace (fetch cfg (Resolved data) g)) = false.
Proof. vm_compute. repeat split; reflexivity. Qed.

(** C2, amended. A cycle is marked invalid exactly when neither diff is NaN
    and at least one of them is infinite.  In every such cycle the only
    effects are the render and the timer for the next cycle: nothing is
    logged, nothing is plotted, no alert is evaluated, and the baseline is not
    updated. *)
Theorem invalid_cycle_is_silent cfg data g :
  extraction_succeeds cfg data g ->
  let c := classify cfg (extracted cfg data g) in
  let out := fetch cfg (Resolved data) g in
  (faresAreValid c = false <->
   diffs_are_numbers (outboundFareDiff c) (returnFareDiff c) = true /\
   (Num.isInfinite (outboundFareDiff c) = true \/
    Num.isInfinite (returnFareDiff c) = true)) /\
  (faresAreValid c = false ->
   trace out = closing_effects cfg /\
   fares_logged (trace out) = false /\
   fares_plotted (trace out) = false /\
   alert_fired (trace out) = false /\
   same_baseline g (final out) /\
   rescheduled (trace out) = true).
Proof.
  intros Hx c out. split.
  - subst c. unfold classify, diffs_are_numbers. cbn [faresAreValid outboundFareDiff returnFareDiff].
    set (od := js_sub _ _). set (rd := if oneWay cfg then _ else _).
    destruct od as [s|s| |s m e]; destruct rd as [s'|s'| |s' m' e']; cbn;
      intuition congruence.
  - intros Hv. subst out.
    destruct (fetch_extraction_succeeded cfg data g Hx) as [Hf Ht].
    destruct (report_invalid cfg _ Hv) as [Hf' Ht'].
    rewrite Hf, Ht, Hf', Ht'.
    repeat split; try reflexivity;
      destruct (extract_baseline cfg data g) as [H1 H2]; assumption.
Qed.

Lemma invalid_cycle_is_silent_witness :
  let cfg := {| individualDealPrice := euro 30; totalDealPrice := euro 100;
                interval := euro 30; oneWay := false;
                isTwilioConfigured := true |} in
  let g := {| prevLowestOutboundFare := euro 50;
              prevLowestReturnFare := euro 40;
              fares_outbound := []; fares_return := [] |} in
  let data := {| trips := [quote (VNum Num.Infinity); quote (euro 25)] |} in
  trace (fetch cfg (Resolved data) g) = closing_effects cfg /\
  same_baseline g (final (fetch cfg (Resolved data) g)).
Proof.
  intros cfg g data.
  destruct (invalid_cycle_is_silent cfg data g eq_refl) as [_ H].
  destruct (H eq_refl) as (H1 & _ & _ & _ & H2 & _).
  split; assumption.
Defined.

(* ===================================================================== *)
(** ** The baseline *)
(* ===================================================================== *)

(** C3. The two previous-fare globals change only in a valid cycle, where
    they receive that cycle's lowest fares; a rejected request, a failed
    extraction and an invalid cycle all leave them as they were.  An invalid
    cycle hands the state it started from to the next cycle unchanged, so the
    next cycle behaves, and computes its diffs, exactly as if the invalid one
    had not run. *)
Theorem baseline_changes_only_in_valid_cycles cfg :
  (forall r g,
      same_baseline g (final (fetch cfg r g)) \/
      exists data,
        r = Resolved data /\
        extraction_succeeds cfg data g /\
        faresAreValid (classify cfg (extracted cfg data g)) = true /\
        prevLowestOutboundFare (final (fetch cfg r g)) =
          VNum (lowestOutboundFare (classify cfg (extracted cfg data g))) /\
        prevLowestReturnFare (final (fetch cfg r g)) =
          VNum (lowestReturnFare (classify cfg (extracted cfg data g)))) /\
  (forall data g,
      extraction_succeeds cfg data g ->
      faresAreValid (classify cfg (extracted cfg data g)) = false ->
      same_baseline g (final (fetch cfg (Resolved data) g))) /\
  (forall r g e,
      cycle_fails cfg r g e -> same_baseline g (final (fetch cfg r g))) /\
  (forall data g next,
      reachable cfg g ->
      extraction_succeeds cfg data g ->
      faresAreValid (classify cfg (extracted cfg data g)) = false ->
      let g1 := final (fetch cfg (Resolved data) g) in
      g1 = g /\
      fetch cfg next g1 = fetch cfg next g /\
      forall data',
        let c' := classify cfg (extracted cfg data' g1) in
        outboundFareDiff c' =
          js_sub (prevLowestOutboundFare g) (VNum (lowestOutboundFare c')) /\
        (oneWay cfg = false ->
         returnFareDiff c' =
           js_sub (prevLowestReturnFare g) (VNum (lowestReturnFare c')))).
Proof.
  assert (Hinv : forall data g,
             extraction_succeeds cfg data g ->
             faresAreValid (classify cfg (extracted cfg data g)) = false ->
             final (fetch cfg (Resolved data) g) =
             clear_fares (extracted cfg data g)).
  { intros data g Hx Hv.
    destruct (fetch_extraction_succeeded cfg data g Hx) as [-> _].
    now destruct (report_invalid cfg _ Hv) as [-> _]. }
  assert (Hfail : forall r g e,
             cycle_fails cfg r g e -> same_baseline g (final (fetch cfg r g))).
  { intros r g e H. destruct r as [message|data]; cbn in H.
    - rewrite fetch_rejected. split; reflexivity.
    - rewrite (fetch_extraction_failed cfg data g e H). apply extract_baseline. }
  assert (Hsame : forall data g,
             extraction_succeeds cfg data g ->
             faresAreValid (classify cfg (extracted cfg data g)) = false ->
             same_baseline g (final (fetch cfg (Resolved data) g))).
  { intros data g Hx Hv. rewrite (Hinv data g Hx Hv).
    destruct (extract_baseline cfg data g) as [H1 H2]. split; assumption. }
  split; [|split; [exact Hsame|split; [exact Hfail|]]].
  - intros [message|data] g.
    + left. apply (Hfail _ _ (RequestError message)). reflexivity.
    + destruct (settled (extract cfg data g)) as [e|[]] eqn:Hx.
      * left. apply (Hfail (Resolved data) g e). exact Hx.
      * destruct (faresAreValid (classify cfg (extracted cfg data g))) eqn:Hv.
        -- right. exists data.
           destruct (fetch_extraction_succeeded cfg data g Hx) as [Hf _].
           destruct (report_valid cfg _ Hv) as [Hf' _].
           rewrite Hf, Hf'. repeat split; auto.
        -- left. apply Hsame; assumption.
  - intros data g next Hr Hx Hv g1.
    assert (Hg : g1 = g).
    { subst g1. rewrite (Hinv data g Hx Hv).
      destruct (extract_baseline cfg data g) as [H1 H2].
      destruct (reachable_fares_empty cfg g Hr) as [H3 H4].
      destruct g as [po pr fo fr]. cbn in *. subst fo fr.
      unfold clear_fares. now rewrite H1, H2. }
    split; [exact Hg|]. rewrite Hg. split; [reflexivity|].
    intros data' c'. subst c'. unfold classify.
    cbn [outboundFareDiff returnFareDiff lowestOutboundFare lowestReturnFare].
    destruct (extract_baseline cfg data' g) as [-> ->].
    split; [reflexivity|]. intros ->. reflexivity.
Qed.

Lemma baseline_changes_only_in_valid_cycles_witness :
  let cfg := {| individualDealPrice := VUndefined; totalDealPrice := euro 100;
                interval := euro 30; oneWay := false;
                isTwilioConfigured := false |} in
  let first := {| trips := [quote (euro 50); quote (euro 40)] |} in
  let bad := {| trips := [quote (VNum Num.Infinity); quote (euro 40)] |} in
  let good := {| trips := [quote (euro 45); quote (euro 40)] |} in
  let g := final (fetch cfg (Resolved first) initial) in
  let g1 := final (fetch cfg (Resolved bad) g) in
  g1 = g /\
  outboundFareDiff (classify cfg (extracted cfg good g1)) = Num.of_Z 5.
Proof.
  intros cfg first bad good g g1.
  destruct (baseline_changes_only_in_valid_cycles cfg) as (_ & _ & _ & H).
  assert (Hr : reachable cfg g).
  { apply (reachable_next cfg initial (Resolved first)).
    - apply reachable_initial.
    - vm_compute. reflexivity. }
  destruct (H bad g (Resolved good) Hr eq_refl eq_refl) as (H1 & _ & H2).
  split; [exact H1|].
  destruct (H2 good) as [H3 _]. fold g1 in H3. rewrite H3.
  vm_compute. reflexivity.
Defined.

(* ===================================================================== *)
(** ** The deal *)
(* ===================================================================== *)

(** C4, as stated, fails: on a one-way search with an individual deal price
    of 0 given on the command line, the return fare is the constant 0 and
    satisfies [0 <= 0] in a valid cycle, yet no alert fires. *)
Lemma alert_iff_configured_counterexample :
  let cfg := {| individualDealPrice := euro 0; totalDealPrice := VUndefined;
                interval := euro 30; oneWay := true;
                isTwilioConfigured := true |} in
  let data := {| trips := [quote (euro 50)] |} in
  let c := classify cfg (extracted cfg data initial) in
  extraction_succeeds cfg data initial /\
  faresAreValid c = true /\
  (configured (individualDealPrice cfg) /\
   (js_le (VNum (lowestOutboundFare c)) (individualDealPrice cfg) = true \/
    js_le (VNum (lowestReturnFare c)) (individualDealPrice cfg) = true)) /\
  alert_fired (trace (fetch cfg (Resolved data) initial)) = false.
Proof.
  cbv zeta. split; [reflexivity|]. split; [reflexivity|].
  split; [|reflexivity].
  split; [discriminate|]. right. reflexivity.
Qed.

(** C4, amended. In every valid cycle the alert fires if and only if
    ([totalDealPrice] is truthy, that is given and neither 0 nor NaN, and
    [lowestOutboundFare + lowestReturnFare <= totalDealPrice]) or
    ([individualDealPrice] is truthy and one of the two lowest fares is at
    most [individualDealPrice]); in an invalid cycle no alert fires. *)
Theorem alert_fires_iff_deal cfg data g :
  extraction_succeeds cfg data g ->
  let c := classify cfg (extracted cfg data g) in
  let tr := trace (fetch cfg (Resolved data) g) in
  (faresAreValid c = true ->
   (alert_fired tr = true <->
    (truthy (totalDealPrice cfg) = true /\
     js_le (VNum (Num.add (lowestOutboundFare c) (lowestReturnFare c)))
           (totalDealPrice cfg) = true) \/
    (truthy (individualDealPrice cfg) = true /\
     (js_le (VNum (lowestOutboundFare c)) (individualDealPrice cfg) = true \/
      js_le (VNum (lowestReturnFare c)) (individualDealPrice cfg) = true)))) /\
  (faresAreValid c = false -> alert_fired tr = false).
Proof.
  intros Hx c tr.
  destruct (fetch_extraction_succeeded cfg data g Hx) as [_ Ht].
  split; intros Hv; subst tr; rewrite Ht.
  - rewrite (alert_fired_valid cfg _ Hv). fold c.
    unfold awesomeDealIsAwesome, js_or, js_and.
    destruct (truthy (totalDealPrice cfg)) eqn:Et;
      destruct (truthy (individualDealPrice cfg)) eqn:Ei; cbn [truthy];
        try rewrite Et; try rewrite Ei;
        repeat match goal with
               | |- context [js_le ?a ?b] => destruct (js_le a b); cbn
               end; try rewrite Et; try rewrite Ei; intuition congruence.
  - now destruct (report_invalid cfg _ Hv) as [_ ->].
Qed.

Lemma alert_fires_iff_deal_witness :
  let cfg := {| individualDealPrice := euro 30; totalDealPrice := VUndefined;
                interval := euro 30; oneWay := false;
                isTwilioConfigured := false |} in
  let data := {| trips := [quote (euro 50); quote (euro 25)] |} in
  alert_fired (trace (fetch cfg (Resolved data) initial)) = true.
Proof.
  intros cfg data.
  destruct (alert_fires_iff_deal cfg data initial eq_refl) as [H _].
  apply (H eq_refl). right. split; [reflexivity|]. right. reflexivity.
Defined.

(* ===================================================================== *)
(** ** The trend *)
(* ===================================================================== *)

(** C5, as stated, fails: after a first cycle that recorded 50 and an
    infinite return fare, a cycle that finds 45 and again an infinite return
    fare has an outbound diff of 5, which is positive, and still no
    annotation on the outbound leg, because the return diff is NaN. *)
Lemma trend_per_leg_counterexample :
  let cfg := {| individualDealPrice := VUndefined; totalDealPrice := VUndefined;
                interval := euro 30; oneWay := false;
                isTwilioConfigured := false |} in
  let first := {| trips := [quote (euro 50); quote (VNum Num.Infinity)] |} in
  let second := {| trips := [quote (euro 45); quote (VNum Num.Infinity)] |} in
  let g := final (fetch cfg (Resolved first) initial) in
  let c := classify cfg (extracted cfg second g) in
  rescheduled (trace (fetch cfg (Resolved first) initial)) = true /\
  extraction_succeeds cfg second g /\
  outboundFareDiff c = Num.of_Z 5 /\
  Num.ltb Num.zero (outboundFareDiff c) = true /\
  outboundFareDiffString c = NoAnnotation.
Proof. vm_compute. repeat split; reflexivity. Qed.

(** C5, amended. For each leg the diff is the previous lowest fare minus the
    current one.  When neither leg's diff is NaN, each leg is classified by
    its own diff: positive gives the favourable "down" annotation, negative
    the unfavourable "up" annotation, zero the "no change" annotation.  When
    the diff of either leg is NaN, neither leg has an annotation; an undefined
    previous lowest fare makes that leg's diff NaN, so the first cycle has
    none. *)
Theorem trend_classification cfg g :
  let c := classify cfg g in
  let od := outboundFareDiff c in
  let rd := returnFareDiff c in
  (od = js_sub (prevLowestOutboundFare g) (VNum (lowestOutboundFare c)) /\
   (oneWay cfg = false ->
    rd = js_sub (prevLowestReturnFare g) (VNum (lowestReturnFare c)))) /\
  (diffs_are_numbers od rd = true ->
   (Num.ltb Num.zero od = true ->
    outboundFareDiffString c = Down (Num.abs od)) /\
   (Num.ltb od Num.zero = true ->
    outboundFareDiffString c = Up (Num.abs od)) /\
   (Num.eqb od Num.zero = true -> outboundFareDiffString c = NoChange) /\
   (oneWay cfg = false ->
    (Num.ltb Num.zero rd = true ->
     returnFareDiffString c = Down (Num.abs rd)) /\
    (Num.ltb rd Num.zero = true ->
     returnFareDiffString c = Up (Num.abs rd)) /\
    (Num.eqb rd Num.zero = true -> returnFareDiffString c = NoChange))) /\
  (diffs_are_numbers od rd = false ->
   outboundFareDiffString c = NoAnnotation /\
   returnFareDiffString c = NoAnnotation) /\
  (prevLowestOutboundFare g = VUndefined ->
   od = Num.NaN /\ diffs_are_numbers od rd = false) /\
  (oneWay cfg = false -> prevLowestReturnFare g = VUndefined ->
   rd = Num.NaN /\ diffs_are_numbers od rd = false).
Proof.
  intros c od rd. subst od rd c. unfold classify.
  cbn [outboundFareDiff returnFareDiff lowestOutboundFare lowestReturnFare
       outboundFareDiffString returnFareDiffString].
  set (od := js_sub (prevLowestOutboundFare g) _).
  set (rd := if oneWay cfg then Num.zero else _).
  split; [|split; [|split; [|split]]].
  - split; [reflexivity|]. intros H. subst rd. rewrite H. reflexivity.
  - intros ->. split; [|split; [|split]].
    + intros ->. reflexivity.
    + intros H. destruct (Num.ltb Num.zero od) eqn:E.
      * apply ltb_zero_asym in E. congruence.
      * rewrite H. reflexivity.
    + intros H. destruct (eqb_zero_not_lt od H) as [-> ->]. rewrite H.
      reflexivity.
    + intros Hw. rewrite Hw. cbn [negb]. rewrite andb_true_r.
      split; [|split].
      * intros ->. reflexivity.
      * intros H. destruct (Num.ltb Num.zero rd) eqn:E.
        -- apply ltb_zero_asym in E. congruence.
        -- rewrite H. reflexivity.
      * intros H. destruct (eqb_zero_not_lt rd H) as [-> ->]. rewrite H.
        reflexivity.
  - intros ->. split; reflexivity.
  - intros H. subst od. rewrite H. split; reflexivity.
  - intros Hw H. subst rd. rewrite Hw, H. split; [reflexivity|].
    unfold diffs_are_numbers. cbn. apply andb_false_r.
Qed.

Lemma trend_classification_witness :
  let cfg := {| individualDealPrice := VUndefined; totalDealPrice := VUndefined;
                interval := euro 30; oneWay := false;
                isTwilioConfigured := false |} in
  let g := {| prevLowestOutboundFare := euro 50;
              prevLowestReturnFare := euro 40;
              fares_outbound := [euro 45]; fares_return := [euro 40] |} in
  outboundFareDiffString (classify cfg g) = Down (Num.of_Z 5) /\
  returnFareDiffString (classify cfg g) = NoChange /\
  outboundFareDiffString (classify cfg initial) = NoAnnotation.
Proof.
  intros cfg g.
  destruct (trend_classification cfg g) as (_ & H & _).
  destruct (H eq_refl) as (H1 & _ & _ & H2).
  destruct (H2 eq_refl) as (_ & _ & H3).
  destruct (trend_classification cfg initial) as (_ & _ & H4 & H5 & _).
  destruct (H5 eq_refl) as [_ H6].
  split; [|split].
  - rewrite (H1 eq_refl). vm_compute. reflexivity.
  - exact (H3 eq_refl).
  - exact (proj1 (H4 H6)).
Defined.

(* ===================================================================== *)
(** ** Infinite amounts *)
(* ===================================================================== *)

(** C6, as stated, fails: on the first cycle an infinite outbound amount
    gives a NaN diff, so the cycle is valid; the baseline becomes infinite
    and, with a return fare of 25 under an individual deal price of 30, the
    alert fires. *)
Lemma infinite_amount_first_cycle_counterexample :
  let cfg := {| individualDealPrice := euro 30; totalDealPrice := VUndefined;
                interval := euro 30; oneWay := false;
                isTwilioConfigured := false |} in
  let data := {| trips := [quote (VNum Num.Infinity); quote (euro 25)] |} in
  let out := fetch cfg (Resolved data) initial in
  fare_amount data 0 = inr (VNum Num.Infinity) /\
  faresAreValid (classify cfg (extracted cfg data initial)) = true /\
  prevLowestOutboundFare (final out) = VNum Num.Infinity /\
  prevLowestOutboundFare (final out) <> prevLowestOutboundFare initial /\
  alert_fired (trace out) = true.
Proof.
  cbv zeta. repeat split; try reflexivity. vm_compute. discriminate.
Qed.

(** C6, amended. In a cycle that starts with finite previous lowest fares
    on both legs, if an extracted amount is infinite and no extracted amount
    is NaN, the cycle is marked invalid, both previous lowest fares are left
    unchanged and no alert fires, whatever the thresholds. *)
Theorem infinite_amount_invalidates cfg data g a0 a1 po pr :
  reachable cfg g ->
  prevLowestOutboundFare g = VNum po -> Num.isFinite po = true ->
  prevLowestReturnFare g = VNum pr -> Num.isFinite pr = true ->
  fare_amount data 0 = inr a0 ->
  (oneWay cfg = false -> fare_amount data 1 = inr a1) ->
  Num.isNaN (to_number a0) = false ->
  (oneWay cfg = false -> Num.isNaN (to_number a1) = false) ->
  Num.isInfinite (to_number a0) = true \/
  (oneWay cfg = false /\ Num.isInfinite (to_number a1) = true) ->
  let out := fetch cfg (Resolved data) g in
  extraction_succeeds cfg data g /\
  faresAreValid (classify cfg (extracted cfg data g)) = false /\
  same_baseline g (final out) /\
  alert_fired (trace out) = false.
Proof.
  intros Hr Hpo Fpo Hpr Fpr H0 H1 N0 N1 Hinf out.
  destruct (reachable_fares_empty cfg g Hr) as [Eo Er].
  assert (Hx : extraction_succeeds cfg data g).
  { unfold extraction_succeeds, extract, bind, read_amount, when, modify, ret.
    rewrite H0. cbn. destruct (oneWay cfg); cbn; [reflexivity|].
    rewrite (H1 eq_refl). reflexivity. }
  assert (Hv : faresAreValid (classify cfg (extracted cfg data g)) = false).
  { destruct (extract_success cfg data g Hx) as (b0 & Hb0 & Fo & Fr).
    rewrite H0 in Hb0. injection Hb0 as <-.
    destruct (extract_baseline cfg data g) as [Bo Br].
    unfold classify. cbn [faresAreValid]. rewrite Fo, Eo, Bo, Br, Hpo, Hpr.
    cbn [app]. rewrite Math_min_single.
    unfold js_sub. cbn [to_number].
    destruct (oneWay cfg) eqn:Hw.
    - destruct Hinf as [Hi|[Hc _]]; [|discriminate].
      destruct (sub_finite_infinite po (to_number a0) Fpo Hi) as [Hn Hf].
      unfold diffs_are_numbers. rewrite Hn, Hf. reflexivity.
    - destruct Fr as (b1 & Hb1 & Fr). rewrite (H1 eq_refl) in Hb1.
      injection Hb1 as <-. rewrite Fr, Er. cbn [app].
      rewrite Math_min_single.
      pose proof (sub_finite_not_NaN po (to_number a0) Fpo N0) as Hn0.
      pose proof (sub_finite_not_NaN pr (to_number a1) Fpr (N1 eq_refl)) as Hn1.
      unfold diffs_are_numbers. rewrite Hn0, Hn1. cbn [negb andb].
      destruct Hinf as [Hi|[_ Hi]].
      + destruct (sub_finite_infinite po (to_number a0) Fpo Hi) as [_ ->].
        reflexivity.
      + destruct (sub_finite_infinite pr (to_number a1) Fpr Hi) as [_ ->].
        cbn [negb]. rewrite orb_true_r. reflexivity. }
  split; [exact Hx|]. split; [exact Hv|].
  subst out.
  destruct (fetch_extraction_succeeded cfg data g Hx) as [-> ->].
  destruct (report_invalid cfg _ Hv) as [-> ->].
  split; [|reflexivity].
  destruct (extract_baseline cfg data g) as [Bo Br]. split; assumption.
Qed.

Lemma infinite_amount_invalidates_witness :
  let cfg := {| individualDealPrice := euro 30; totalDealPrice := euro 100;
                interval := euro 30; oneWay := false;
                isTwilioConfigured := true |} in
  let first := {| trips := [quote (euro 50); quote (euro 40)] |} in
  let bad := {| trips := [quote (VNum Num.Infinity); quote (euro 25)] |} in
  let g := final (fetch cfg (Resolved first) initial) in
  faresAreValid (classify cfg (extracted cfg bad g)) = false /\
  same_baseline g (final (fetch cfg (Resolved bad) g)) /\
  alert_fired (trace (fetch cfg (Resolved bad) g)) = false.
Proof.
  intros cfg first bad g.
  assert (Hr : reachable cfg g).
  { apply (reachable_next cfg initial (Resolved first)).
    - apply reachable_initial.
    - vm_compute. reflexivity. }
  destruct (infinite_amount_invalidates cfg bad g (VNum Num.Infinity) (euro 25)
              (Num.of_Z 50) (Num.of_Z 40) Hr)
    as (_ & H1 & H2 & H3);
    try (vm_compute; reflexivity); try (intros _; vm_compute; reflexivity).
  - left. reflexivity.
  - split; [exact H1|]. split; [exact H2|exact H3].
Defined.

(* ===================================================================== *)
(** ** The first cycle *)
(* ===================================================================== *)

(** C7. In a cycle that starts with no previous baseline, the outbound diff
    (and on a round trip the return diff) is NaN and the cycle is valid: no
    annotation is computed or shown, the deal expression is evaluated and
    decides the alert, and the baseline becomes the current lowest fares.
    With 50 outbound, 40 return and a total deal price of 100 the alert fires
    on the first cycle. *)
Theorem first_cycle_is_valid :
  (forall cfg data g,
      prevLowestOutboundFare g = VUndefined ->
      prevLowestReturnFare g = VUndefined ->
      extraction_succeeds cfg data g ->
      let c := classify cfg (extracted cfg data g) in
      let out := fetch cfg (Resolved data) g in
      outboundFareDiff c = Num.NaN /\
      (oneWay cfg = false -> returnFareDiff c = Num.NaN) /\
      faresAreValid c = true /\
      outboundFareDiffString c = NoAnnotation /\
      returnFareDiffString c = NoAnnotation /\
      logs has_annotation (trace out) = false /\
      fares_logged (trace out) = true /\
      alert_fired (trace out) = truthy (awesomeDealIsAwesome cfg c) /\
      prevLowestOutboundFare (final out) = VNum (lowestOutboundFare c) /\
      prevLowestReturnFare (final out) = VNum (lowestReturnFare c)) /\
  (forall individual every twilio,
      let cfg := {| individualDealPrice := individual;
                    totalDealPrice := euro 100;
                    interval := every; oneWay := false;
                    isTwilioConfigured := twilio |} in
      let data := {| trips := [quote (euro 50); quote (euro 40)] |} in
      alert_fired (trace (fetch cfg (Resolved data) initial)) = true).
Proof.
  split.
  - intros cfg data g Ho Hrt Hx c out.
    destruct (extract_baseline cfg data g) as [Bo Br].
    assert (Hod : outboundFareDiff c = Num.NaN).
    { subst c. unfold classify. cbn [outboundFareDiff]. rewrite Bo, Ho.
      reflexivity. }
    assert (Hin : diffs_are_numbers (outboundFareDiff c) (returnFareDiff c)
                  = false).
    { rewrite Hod. reflexivity. }
    assert (Hv : faresAreValid c = true).
    { revert Hin. subst c. unfold classify.
      cbn [faresAreValid outboundFareDiff returnFareDiff]. intros ->.
      reflexivity. }
    destruct (trend_shape cfg (extracted cfg data g)) as [_ Hs].
    destruct (Hs Hin) as [So Sr]. fold c in So, Sr.
    destruct (fetch_extraction_succeeded cfg data g Hx) as [Hf Ht].
    destruct (report_valid cfg _ Hv) as [Hf' Ht']. fold c in Hf', Ht'.
    subst out. rewrite Hf, Ht, Hf', Ht'.
    repeat split; try assumption; try reflexivity.
    + intros Hw. subst c. unfold classify. cbn [returnFareDiff].
      rewrite Hw, Br, Hrt. reflexivity.
    + unfold logs. rewrite !existsb_app. unfold alert_effects, fare_effects.
      rewrite So, Sr. unfold shown. cbn [filter piece_truthy].
      destruct (truthy (awesomeDealIsAwesome cfg c));
        destruct (isTwilioConfigured cfg); destruct (oneWay cfg);
        destruct (Num.truthy (lowestOutboundFare c));
        destruct (Num.truthy (lowestReturnFare c)); reflexivity.
    + unfold fares_logged, logs. rewrite !existsb_app.
      unfold fare_effects. destruct (oneWay cfg); cbn;
        rewrite ?orb_true_r; reflexivity.
    + fold (alert_fired (alert_effects cfg c ++ fare_effects cfg c
                         ++ closing_effects cfg)).
      rewrite !alert_fired_app, alert_fired_alert_effects,
        alert_fired_fare_effects. cbn. now rewrite !orb_false_r.
  - intros individual every twilio cfg data. destruct twilio; reflexivity.
Qed.

Lemma first_cycle_is_valid_witness :
  let cfg := {| individualDealPrice := VUndefined; totalDealPrice := euro 100;
                interval := euro 30; oneWay := false;
                isTwilioConfigured := false |} in
  let data := {| trips := [quote (euro 50); quote (euro 40)] |} in
  let out := fetch cfg (Resolved data) initial in
  faresAreValid (classify cfg (extracted cfg data initial)) = true /\
  alert_fired (trace out) = true /\
  prevLowestOutboundFare (final out) = euro 50 /\
  prevLowestReturnFare (final out) = euro 40.
Proof.
  intros cfg data out.
  destruct first_cycle_is_valid as [H _].
  destruct (H cfg data initial eq_refl eq_refl eq_refl)
    as (_ & _ & H1 & _ & _ & _ & _ & H2 & H3 & H4).
  split; [exact H1|]. split; [|split].
  - subst out. rewrite H2. vm_compute. reflexivity.
  - subst out. rewrite H3. vm_compute. reflexivity.
  - subst out. rewrite H4. vm_compute. reflexivity.
Defined.

(* ===================================================================== *)
(** ** One-way searches *)
(* ===================================================================== *)

Section OneWay.

Variable cfg : config.
Hypothesis one_way : oneWay cfg = true.

(** Extraction reads the first trip only. *)
Lemma one_way_extract data g :
  extract cfg data g =
  match fare_amount data 0 with
  | inl e => {| settled := inl e; final := g; trace := [] |}
  | inr v => {| settled := inr tt; final := push_outbound v g; trace := [] |}
  end.
Proof.
  unfold extract, bind, read_amount, when, modify, throw, ret.
  rewrite one_way. destruct (fare_amount data 0); reflexivity.
Qed.

Lemma one_way_fare_effects c :
  fare_effects cfg c =
  [Log [LowestOutbound
          (shown (lowestOutboundFare c) (outboundFareDiffString c))];
   Plot (lowestOutboundFare c) None].
Proof. unfold fare_effects. now rewrite one_way. Qed.

(** No line for the return leg and no return price in any plot. *)
Lemma one_way_trace r g :
  logs is_return_line (trace (fetch cfg r g)) = false /\
  return_plotted (trace (fetch cfg r g)) = false.
Proof.
  destruct r as [message|data]; [split; reflexivity|].
  destruct (settled (extract cfg data g)) as [e|[]] eqn:Hx.
  - rewrite (fetch_extraction_failed cfg data g e Hx). split; reflexivity.
  - destruct (fetch_extraction_succeeded cfg data g Hx) as [_ ->].
    set (g1 := extracted cfg data g).
    destruct (faresAreValid (classify cfg g1)) eqn:Hv.
    + destruct (report_valid cfg g1 Hv) as [_ ->].
      unfold logs, return_plotted. rewrite !existsb_app, one_way_fare_effects.
      unfold alert_effects.
      destruct (truthy (awesomeDealIsAwesome cfg (classify cfg g1)));
        destruct (isTwilioConfigured cfg); split; reflexivity.
    + destruct (report_invalid cfg g1 Hv) as [_ ->]. split; reflexivity.
Qed.

(** Every figure for the return leg that a cycle hands out is the constant
    0 inside a deal alert; plots carry no return price and there is no line
    for the return leg. *)
Lemma one_way_effects r g :
  Forall
    (fun e =>
       match e with
       | Log lines =>
         Forall (fun l =>
                   match l with
                   | DealAlert _ _ return_ => return_ = Num.zero
                   | LowestReturn _ => False
                   | _ => True
                   end) lines
       | SendTextMessage _ _ return_ => return_ = Num.zero
       | Plot _ return_ => return_ = None
       | _ => True
       end)
    (trace (fetch cfg r g)).
Proof.
  destruct r as [message|data]; [rewrite fetch_rejected; repeat constructor|].
  destruct (settled (extract cfg data g)) as [e|[]] eqn:Hx.
  - rewrite (fetch_extraction_failed cfg data g e Hx). repeat constructor.
  - destruct (fetch_extraction_succeeded cfg data g Hx) as [_ ->].
    set (g1 := extracted cfg data g).
    destruct (faresAreValid (classify cfg g1)) eqn:Hv.
    + destruct (report_valid cfg g1 Hv) as [_ ->].
      assert (Hz : lowestReturnFare (classify cfg g1) = Num.zero).
      { unfold classify. cbn [lowestReturnFare]. now rewrite one_way. }
      rewrite one_way_fare_effects. unfold alert_effects, closing_effects.
      rewrite Hz.
      destruct (truthy (awesomeDealIsAwesome cfg (classify cfg g1)));
        destruct (isTwilioConfigured cfg); cbn [app]; repeat constructor.
    + destruct (report_invalid cfg g1 Hv) as [_ ->]. repeat constructor.
Qed.

End OneWay.

(** Adding the constant 0 does not change how a fare compares with a
    threshold. *)
Lemma leb_add_zero x t : Num.leb (Num.add x Num.zero) t = Num.leb x t.
Proof.
  destruct x as [s|s| |s m e]; try reflexivity. destruct s; reflexivity.
Qed.

(** Replaying plots without a return price on a one-way dashboard leaves it
    without a return graph. *)
Lemma replay_one_way tr : forall gr,
  Dashboard.return_y gr = None ->
  Dashboard.return_y (Dashboard.replay true tr gr) = None.
Proof.
  unfold Dashboard.replay.
  induction tr as [|e tr IH]; intros gr H; cbn [fold_left]; [exact H|].
  apply IH. destruct e; exact H.
Qed.

(** C8, as stated, fails: the return leg is not fully skipped.  On a
    one-way search with an individual deal price of 30 and an outbound fare
    of 500, the constant 0 that stands for the return fare is compared with
    the individual deal price and fires the alert by itself; the alert that
    is logged and texted names 0 as the return fare; 0 is stored as the
    previous lowest return fare; and the next cycle computes a return
    annotation. *)
Lemma one_way_return_leg_counterexample :
  let cfg := {| individualDealPrice := euro 30; totalDealPrice := VUndefined;
                interval := euro 30; oneWay := true;
                isTwilioConfigured := true |} in
  let data := {| trips := [quote (euro 500)] |} in
  let c := classify cfg (extracted cfg data initial) in
  let out := fetch cfg (Resolved data) initial in
  let c2 := classify cfg (extracted cfg data (final out)) in
  js_le (VNum (lowestOutboundFare c)) (individualDealPrice cfg) = false /\
  js_le (VNum (lowestReturnFare c)) (individualDealPrice cfg) = true /\
  trace out =
    [Log [DealAlert (Num.of_Z 500) (Num.of_Z 500) Num.zero];
     SendTextMessage (Num.of_Z 500) (Num.of_Z 500) Num.zero;
     Log [LowestOutbound [PFare (Num.of_Z 500)]];
     Plot (Num.of_Z 500) None;
     Render;
     SetTimeout (Num.of_Z 1800000)] /\
  prevLowestReturnFare (final out) = VNum Num.zero /\
  returnFareDiffString c2 = NoChange.
Proof. vm_compute. repeat split; reflexivity. Qed.

(** C8, amended. On a one-way search no return fare is extracted
    (extraction reads only the first trip and pushes nothing on
    [fares.return]), no line for the return leg is logged and no return
    price is plotted; the lowest return fare and the return diff are the
    constant 0, and the total-deal test uses 0 as the return contribution,
    so it compares the outbound fare with the total deal price.  The return
    leg is not skipped altogether: the constant 0 is compared with the
    individual deal price, it is the return fare named by every deal alert
    that is logged or texted, it is stored as the previous lowest return
    fare by every valid cycle, and a return annotation is still computed
    ("no change" whenever the outbound diff is a number), though never
    shown. *)
Theorem one_way_return_leg_is_the_constant_zero cfg :
  oneWay cfg = true ->
  (forall data g,
      fares_return (extracted cfg data g) = fares_return g) /\
  (forall data data' g,
      nth_error (trips data) 0 = nth_error (trips data') 0 ->
      fetch cfg (Resolved data) g = fetch cfg (Resolved data') g) /\
  (forall g,
      let c := classify cfg g in
      lowestReturnFare c = Num.zero /\
      returnFareDiff c = Num.zero /\
      returnFareDiffString c =
        (if Num.isNaN (outboundFareDiff c) then NoAnnotation else NoChange) /\
      awesomeDealIsAwesome cfg c =
      js_or
        (js_and (totalDealPrice cfg)
           (VBool (js_le (VNum (lowestOutboundFare c)) (totalDealPrice cfg))))
        (js_and (individualDealPrice cfg)
           (VBool (js_le (VNum (lowestOutboundFare c)) (individualDealPrice cfg)
                   || js_le (VNum Num.zero) (individualDealPrice cfg))))) /\
  (forall data g,
      extraction_succeeds cfg data g ->
      faresAreValid (classify cfg (extracted cfg data g)) = true ->
      prevLowestReturnFare (final (fetch cfg (Resolved data) g)) =
      VNum Num.zero) /\
  (forall r g,
      let tr := trace (fetch cfg r g) in
      logs is_return_line tr = false /\
      return_plotted tr = false /\
      Dashboard.return_y
        (Dashboard.replay true tr (Dashboard.create true)) = None /\
      (forall lines total outbound return_,
          In (Log lines) tr -> In (DealAlert total outbound return_) lines ->
          return_ = Num.zero) /\
      (forall total outbound return_,
          In (SendTextMessage total outbound return_) tr ->
          return_ = Num.zero)).
Proof.
  intros Hw. split; [|split; [|split; [|split]]].
  - intros data g. unfold extracted. rewrite (one_way_extract cfg Hw).
    destruct (fare_amount data 0); reflexivity.
  - intros data data' g H. rewrite !fetch_resolved.
    assert (E : extract cfg data g = extract cfg data' g).
    { rewrite !(one_way_extract cfg Hw). unfold fare_amount. now rewrite H. }
    now rewrite E.
  - intros g c. subst c. unfold classify, awesomeDealIsAwesome.
    cbn [lowestReturnFare returnFareDiff lowestOutboundFare outboundFareDiff
         returnFareDiffString].
    rewrite Hw. split; [reflexivity|]. split; [reflexivity|]. split.
    + unfold diffs_are_numbers.
      destruct (Num.isNaN (js_sub (prevLowestOutboundFare g) _)); reflexivity.
    + unfold js_le at 1. cbn [to_number]. rewrite leb_add_zero. reflexivity.
  - intros data g Hx Hv.
    destruct (fetch_extraction_succeeded cfg data g Hx) as [-> _].
    destruct (report_valid cfg _ Hv) as [-> _].
    unfold store_previous, classify.
    cbn [prevLowestReturnFare lowestReturnFare]. now rewrite Hw.
  - intros r g tr. destruct (one_way_trace cfg Hw r g) as [H1 H2].
    pose proof (one_way_effects cfg Hw r g) as Hall. fold tr in Hall.
    rewrite Forall_forall in Hall.
    split; [exact H1|]. split; [exact H2|]. split; [|split].
    + apply replay_one_way. reflexivity.
    + intros lines total outbound return_ Hin Hl.
      specialize (Hall _ Hin). cbn in Hall. rewrite Forall_forall in Hall.
      exact (Hall _ Hl).
    + intros total outbound return_ Hin. exact (Hall _ Hin).
Qed.

Lemma one_way_return_leg_is_the_constant_zero_witness :
  let cfg := {| individualDealPrice := VUndefined; totalDealPrice := euro 60;
                interval := euro 30; oneWay := true;
                isTwilioConfigured := false |} in
  let data := {| trips := [quote (euro 50)] |} in
  let data' := {| trips := [quote (euro 50); quote (euro 40)] |} in
  fetch cfg (Resolved data') initial = fetch cfg (Resolved data) initial /\
  returnFareDiff (classify cfg (extracted cfg data initial)) = Num.zero /\
  prevLowestReturnFare (final (fetch cfg (Resolved data) initial)) =
    VNum Num.zero /\
  return_plotted (trace (fetch cfg (Resolved data) initial)) = false.
Proof.
  intros cfg data data'.
  destruct (one_way_return_leg_is_the_constant_zero cfg eq_refl)
    as (_ & H1 & H2 & H3 & H4).
  split; [apply H1; reflexivity|]. split; [apply H2|].
  split; [apply H3; reflexivity|apply H4].
Defined.

(** C9. On a one-way search the lowest return fare is the constant 0; for
    every individual deal price that is a positive number the test
    [lowestReturnFare <= individualDealPrice] holds, and the alert fires in
    every valid cycle, whatever the outbound fare. *)
Theorem one_way_individual_price_always_alerts cfg data g p :
  oneWay cfg = true ->
  individualDealPrice cfg = VNum p ->
  Num.ltb Num.zero p = true ->
  extraction_succeeds cfg data g ->
  let c := classify cfg (extracted cfg data g) in
  faresAreValid c = true ->
  lowestReturnFare c = Num.zero /\
  js_le (VNum (lowestReturnFare c)) (individualDealPrice cfg) = true /\
  alert_fired (trace (fetch cfg (Resolved data) g)) = true.
Proof.
  intros Hw Hp Hpos Hx c Hv.
  destruct (positive_truthy p Hpos) as [Tp Lp].
  assert (Hz : lowestReturnFare c = Num.zero).
  { subst c. unfold classify. cbn [lowestReturnFare]. now rewrite Hw. }
  assert (Hle : js_le (VNum (lowestReturnFare c)) (individualDealPrice cfg)
                = true).
  { rewrite Hz, Hp. exact Lp. }
  split; [exact Hz|]. split; [exact Hle|].
  destruct (fetch_extraction_succeeded cfg data g Hx) as [_ ->].
  rewrite (alert_fired_valid cfg _ Hv). fold c.
  unfold awesomeDealIsAwesome. rewrite Hle, orb_true_r.
  unfold js_or, js_and. rewrite Hp. cbn [truthy]. rewrite Tp.
  destruct (truthy (totalDealPrice cfg)) eqn:Et; cbn [truthy].
  - destruct (js_le _ (totalDealPrice cfg)); reflexivity.
  - rewrite Et. reflexivity.
Qed.

Lemma one_way_individual_price_always_alerts_witness :
  let cfg := {| individualDealPrice := euro 30; totalDealPrice := VUndefined;
                interval := euro 30; oneWay := true;
                isTwilioConfigured := false |} in
  let data := {| trips := [quote (euro 500)] |} in
  alert_fired (trace (fetch cfg (Resolved data) initial)) = true.
Proof.
  intros cfg data.
  apply (one_way_individual_price_always_alerts cfg data initial (Num.of_Z 30)
           eq_refl eq_refl eq_refl eq_refl eq_refl).
Defined.

(* ===================================================================== *)
(** ** Thresholds of 0 *)
(* ===================================================================== *)

(** Two configurations that agree on everything the cycle reads except the
    thresholds, and whose deal expressions are truthy together, run the same
    cycle. *)
Lemma fetch_congruence cfg cfg' r g :
  oneWay cfg' = oneWay cfg ->
  interval cfg' = interval cfg ->
  isTwilioConfigured cfg' = isTwilioConfigured cfg ->
  (forall c, truthy (awesomeDealIsAwesome cfg' c) =
             truthy (awesomeDealIsAwesome cfg c)) ->
  fetch cfg' r g = fetch cfg r g.
Proof.
  intros Hw Hi Ht Ha.
  assert (Hc : forall g0, classify cfg' g0 = classify cfg g0).
  { intros g0. unfold classify. now rewrite Hw. }
  assert (Hr : forall g0, report cfg' g0 = report cfg g0).
  { intros g0.
    destruct (report_run cfg' g0) as (Hs' & Hf' & Ht').
    destruct (report_run cfg g0) as (Hs & Hf & Htr).
    cbv zeta in Hf', Ht', Hf, Htr.
    apply result_ext.
    - now rewrite Hs', Hs.
    - now rewrite Hf', Hf, Hc.
    - rewrite Ht', Htr, Hc.
      unfold alert_effects, fare_effects, closing_effects.
      now rewrite Ha, Hw, Hi, Ht. }
  assert (He : forall data, extract cfg' data g = extract cfg data g).
  { intros data. unfold extract. now rewrite Hw. }
  destruct r as [message|data]; [reflexivity|].
  rewrite !fetch_resolved. cbv zeta. now rewrite He, Hr.
Qed.

Lemma deal_total_off cfg c :
  zero_or_absent (totalDealPrice cfg) ->
  truthy (awesomeDealIsAwesome cfg c) =
  truthy (awesomeDealIsAwesome (with_totalDealPrice VUndefined cfg) c).
Proof.
  unfold awesomeDealIsAwesome, with_totalDealPrice.
  cbn [totalDealPrice individualDealPrice].
  intros [->|[s ->]]; reflexivity.
Qed.

Lemma deal_individual_off cfg c :
  zero_or_absent (individualDealPrice cfg) ->
  truthy (awesomeDealIsAwesome cfg c) =
  truthy (awesomeDealIsAwesome (with_individualDealPrice VUndefined cfg) c).
Proof.
  unfold awesomeDealIsAwesome, with_individualDealPrice, js_or.
  cbn [totalDealPrice individualDealPrice].
  intros [->|[s ->]];
    destruct (truthy (js_and (totalDealPrice cfg) _)); reflexivity.
Qed.

(** C10. A total or individual deal price of 0 behaves as an absent one:
    every cycle runs exactly as it does with that threshold undefined.  When
    each threshold is 0 or absent no alert ever fires, whatever the fares,
    even fares of 0. *)
Theorem zero_threshold_is_unconfigured :
  (forall cfg r g,
      zero_or_absent (totalDealPrice cfg) ->
      fetch cfg r g = fetch (with_totalDealPrice VUndefined cfg) r g) /\
  (forall cfg r g,
      zero_or_absent (individualDealPrice cfg) ->
      fetch cfg r g = fetch (with_individualDealPrice VUndefined cfg) r g) /\
  (forall cfg r g,
      zero_or_absent (totalDealPrice cfg) ->
      zero_or_absent (individualDealPrice cfg) ->
      alert_fired (trace (fetch cfg r g)) = false).
Proof.
  split; [|split].
  - intros cfg r g H. symmetry.
    apply fetch_congruence; try reflexivity.
    intros c. symmetry. now apply deal_total_off.
  - intros cfg r g H. symmetry.
    apply fetch_congruence; try reflexivity.
    intros c. symmetry. now apply deal_individual_off.
  - intros cfg r g Ht Hi.
    assert (Ha : forall c, truthy (awesomeDealIsAwesome cfg c) = false).
    { intros c. unfold awesomeDealIsAwesome.
      destruct Ht as [->|[s ->]]; destruct Hi as [->|[s' ->]]; reflexivity. }
    destruct r as [message|data]; [reflexivity|].
    destruct (settled (extract cfg data g)) as [e|[]] eqn:Hx.
    + rewrite (fetch_extraction_failed cfg data g e Hx). reflexivity.
    + destruct (fetch_extraction_succeeded cfg data g Hx) as [_ ->].
      destruct (faresAreValid (classify cfg (extracted cfg data g))) eqn:Hv.
      * rewrite (alert_fired_valid cfg _ Hv). apply Ha.
      * now destruct (report_invalid cfg _ Hv) as [_ ->].
Qed.

Lemma zero_threshold_is_unconfigured_witness :
  let cfg := {| individualDealPrice := euro 0; totalDealPrice := euro 0;
                interval := euro 30; oneWay := false;
                isTwilioConfigured := true |} in
  let data := {| trips := [quote (euro 0); quote (euro 0)] |} in
  fetch cfg (Resolved data) initial =
    fetch (with_totalDealPrice VUndefined cfg) (Resolved data) initial /\
  alert_fired (trace (fetch cfg (Resolved data) initial)) = false.
Proof.
  intros cfg data.
  destruct zero_threshold_is_unconfigured as (H1 & _ & H3).
  assert (Hz : forall v, v = euro 0 -> zero_or_absent v).
  { intros v ->. right. exists false. reflexivity. }
  split.
  - apply H1. apply Hz. reflexivity.
  - apply H3; apply Hz; reflexivity.
Defined.

(* ===================================================================== *)
(** ** [Math.min] *)
(* ===================================================================== *)

Lemma leb_key x y :
  Num.isNaN x = false -> Num.isNaN y = false ->
  (Num.leb x y = true <-> key_le (order_key x) (order_key y)).
Proof.
  unfold Num.leb, SFleb, key_le.
  destruct x as [sx|sx| |sx mx ex]; try discriminate;
    destruct y as [sy|sy| |sy my ey]; try discriminate; intros _ _;
      try destruct sx; try destruct sy; cbn [SFcompare order_key];
        try (split; [intros _; lia | reflexivity]);
        try (split; [discriminate | lia]).
  - change (Pos.compare_cont Eq mx my) with (Pos.compare mx my).
    destruct (Z.compare_spec ex ey); cbn.
    + destruct (Pos.compare_spec mx my); cbn;
        (split; [try discriminate; intros _; lia | try reflexivity; lia]).
    + split; [discriminate | lia].
    + split; [intros _; lia | reflexivity].
  - change (Pos.compare_cont Eq mx my) with (Pos.compare mx my).
    destruct (Z.compare_spec ex ey); cbn.
    + destruct (Pos.compare_spec mx my); cbn;
        (split; [try discriminate; intros _; lia | try reflexivity; lia]).
    + split; [intros _; lia | reflexivity].
    + split; [discriminate | lia].
Qed.

Lemma leb_not_NaN x y :
  Num.leb x y = true -> Num.isNaN x = false /\ Num.isNaN y = false.
Proof.
  destruct x as [sx|sx| |sx mx ex]; destruct y as [sy|sy| |sy my ey];
    cbn; auto; discriminate.
Qed.

Lemma leb_trans x y z :
  Num.leb x y = true -> Num.leb y z = true -> Num.leb x z = true.
Proof.
  intros H1 H2.
  destruct (leb_not_NaN x y H1) as [Nx Ny].
  destruct (leb_not_NaN y z H2) as [_ Nz].
  apply (leb_key x y Nx Ny) in H1. apply (leb_key y z Ny Nz) in H2.
  apply (leb_key x z Nx Nz).
  unfold key_le in *.
  destruct (order_key x) as [[c1 e1] m1].
  destruct (order_key y) as [[c2 e2] m2].
  destruct (order_key z) as [[c3 e3] m3]. lia.
Qed.

Lemma leb_refl x : Num.isNaN x = false -> Num.leb x x = true.
Proof.
  intros N. apply (leb_key x x N N). unfold key_le.
  destruct (order_key x) as [[c e] m]. lia.
Qed.

Lemma ltb_leb x y : Num.ltb x y = true -> Num.leb x y = true.
Proof.
  unfold Num.ltb, Num.leb, SFltb, SFleb.
  destruct (SFcompare x y) as [[]|]; auto.
Qed.

Lemma not_ltb_leb x y :
  Num.isNaN x = false -> Num.isNaN y = false ->
  Num.ltb x y = false -> Num.leb y x = true.
Proof.
  intros Nx Ny H. apply (leb_key y x Ny Nx).
  destruct (Num.leb x y) eqn:E.
  - (* x <= y and not x < y: the keys are equal *)
    revert H E. unfold Num.ltb, Num.leb, SFltb, SFleb, key_le.
    destruct x as [sx|sx| |sx mx ex]; try discriminate;
      destruct y as [sy|sy| |sy my ey]; try discriminate;
        try destruct sx; try destruct sy; cbn [SFcompare order_key];
          try discriminate; try (intros _ _; lia);
            change (Pos.compare_cont Eq mx my) with (Pos.compare mx my);
            destruct (Z.compare_spec ex ey); cbn; try discriminate;
              destruct (Pos.compare_spec mx my); cbn; try discriminate;
                intros _ _; lia.
  - assert (K : ~ key_le (order_key x) (order_key y)).
    { intros K. apply (leb_key x y Nx Ny) in K. congruence. }
    unfold key_le in *.
    destruct (order_key x) as [[c1 e1] m1].
    destruct (order_key y) as [[c2 e2] m2]. lia.
Qed.

(** One step of the reduction: NaN is contagious; otherwise the result is
    one of the two operands and below both. *)
Lemma min2_spec a x :
  (Num.isNaN (Num.min2 a x) = true <->
   Num.isNaN a = true \/ Num.isNaN x = true) /\
  (Num.isNaN a = false -> Num.isNaN x = false ->
   (Num.min2 a x = a \/ Num.min2 a x = x) /\
   Num.leb (Num.min2 a x) a = true /\ Num.leb (Num.min2 a x) x = true).
Proof.
  split.
  - unfold Num.min2.
    destruct a as [sa|sa| |sa ma ea]; destruct x as [sx|sx| |sx mx ex];
      try destruct sa; try destruct sx; cbn [Num.isNaN];
        try (split; [discriminate|intros [H|H]; discriminate H]);
        try (split; [auto|reflexivity]);
        match goal with
        | |- context [if ?b then _ else _] =>
          destruct b; cbn [Num.isNaN];
            (split; [discriminate|intros [H|H]; discriminate H])
        end.
  - intros Na Nx.
    assert (E : Num.min2 a x = (if Num.ltb x a then x else a) \/
                (Num.min2 a x = x /\ Num.leb x a = true /\
                 Num.leb a x = true)).
    { unfold Num.min2.
      destruct a as [sa|sa| |sa ma ea]; try discriminate;
        destruct x as [sx|sx| |sx mx ex]; try discriminate;
          try destruct sa; try destruct sx; auto. }
    destruct E as [E|(E & L1 & L2)].
    + rewrite E. destruct (Num.ltb x a) eqn:L.
      * split; [auto|]. split; [now apply ltb_leb|now apply leb_refl].
      * split; [auto|]. split; [now apply leb_refl|].
        now apply not_ltb_leb.
    + rewrite E. split; [auto|]. split; [exact L1|now apply leb_refl].
Qed.

Lemma leb_Infinity x : Num.isNaN x = false -> Num.leb x Num.Infinity = true.
Proof. destruct x as [s|s| |s m e]; try destruct s; cbn; auto; discriminate. Qed.

Lemma Infinity_leb x : Num.leb Num.Infinity x = true -> x = Num.Infinity.
Proof.
  destruct x as [s|s| |s m e]; try destruct s; cbn; auto; discriminate.
Qed.

(** The reduction from any start value that is not NaN. *)
Lemma fold_min2_spec xs : forall a,
  Num.isNaN a = false ->
  (forall x, In x xs -> Num.isNaN x = false) ->
  let r := fold_left Num.min2 xs a in
  Num.isNaN r = false /\
  Num.leb r a = true /\
  (forall x, In x xs -> Num.leb r x = true) /\
  (r = a \/ In r xs).
Proof.
  induction xs as [|x xs IH]; intros a Na Nxs; cbn [fold_left].
  - repeat split; auto using leb_refl; intros x [].
  - assert (Nx : Num.isNaN x = false) by (apply Nxs; left; reflexivity).
    destruct (min2_spec a x) as [Hn Hm].
    destruct (Hm Na Nx) as (Hsel & La & Lx).
    assert (Nm : Num.isNaN (Num.min2 a x) = false).
    { apply not_true_is_false. intros E. apply Hn in E.
      destruct E; congruence. }
    destruct (IH (Num.min2 a x) Nm (fun y Hy => Nxs y (or_intror Hy)))
      as (Nr & Lr & Lall & Hin).
    split; [exact Nr|]. split; [eapply leb_trans; eassumption|]. split.
    + intros y [<-|Hy]; [eapply leb_trans; eassumption|now apply Lall].
    + destruct Hin as [Hr|Hr]; [|right; right; exact Hr].
      rewrite Hr. destruct Hsel as [->| ->]; [left|right; left]; reflexivity.
Qed.

Lemma fold_min2_NaN xs : forall a,
  Num.isNaN (fold_left Num.min2 xs a) = true <->
  Num.isNaN a = true \/ exists x, In x xs /\ Num.isNaN x = true.
Proof.
  induction xs as [|x xs IH]; intros a; cbn [fold_left].
  - split; [auto|]. intros [H|(x & [] & _)]. exact H.
  - rewrite IH. destruct (min2_spec a x) as [Hn _]. rewrite Hn. split.
    + intros [[H|H]|(y & Hy & Ny)]; [left; exact H| |].
      * right. exists x. split; [left; reflexivity|exact H].
      * right. exists y. split; [right; exact Hy|exact Ny].
    + intros [H|(y & [<-|Hy] & Ny)]; [left; left; exact H| |].
      * left. right. exact Ny.
      * right. exists y. split; assumption.
Qed.

(** X1. [Math.min] over the collected fares: the result is NaN exactly when
    some argument converts to NaN; otherwise it is at most every argument
    and, unless there is no argument (where it is +Infinity), it is one of
    them. *)
Theorem Math_min_is_the_least vs :
  (Num.isNaN (Math_min vs) = true <->
   exists v, In v vs /\ Num.isNaN (to_number v) = true) /\
  ((forall v, In v vs -> Num.isNaN (to_number v) = false) ->
   (forall v, In v vs -> Num.leb (Math_min vs) (to_number v) = true) /\
   (vs = [] -> Math_min vs = Num.Infinity) /\
   (vs <> [] -> exists v, In v vs /\ Math_min vs = to_number v)).
Proof.
  unfold Math_min, Num.min_list. split.
  - rewrite fold_min2_NaN. split.
    + intros [H|(x & Hx & Nx)]; [discriminate H|].
      apply in_map_iff in Hx. destruct Hx as (v & <- & Hv). eauto.
    + intros (v & Hv & Nv). right. exists (to_number v).
      split; [now apply in_map|exact Nv].
  - intros Hn.
    assert (Hn' : forall x, In x (map to_number vs) -> Num.isNaN x = false).
    { intros x Hx. apply in_map_iff in Hx. destruct Hx as (v & <- & Hv).
      now apply Hn. }
    destruct (fold_min2_spec (map to_number vs) Num.Infinity eq_refl Hn')
      as (Nr & _ & Lall & Hin).
    split; [|split].
    + intros v Hv. apply Lall. now apply in_map.
    + intros ->. reflexivity.
    + intros Hne. destruct vs as [|v0 vs]; [congruence|].
      destruct Hin as [Hr|Hr].
      * exists v0. split; [left; reflexivity|]. rewrite Hr.
        symmetry. apply Infinity_leb. rewrite <- Hr. apply Lall.
        left. reflexivity.
      * apply in_map_iff in Hr. destruct Hr as (v & Hv & Hin).
        exists v. split; [exact Hin|]. now rewrite Hv.
Qed.

Lemma Math_min_is_the_least_witness :
  Math_min [euro 50; euro 45; euro 60] = Num.of_Z 45 /\
  Num.leb (Math_min [euro 50; euro 45; euro 60]) (Num.of_Z 60) = true.
Proof.
  destruct (Math_min_is_the_least [euro 50; euro 45; euro 60]) as [_ H].
  assert (Hn : forall v, In v [euro 50; euro 45; euro 60] ->
                         Num.isNaN (to_number v) = false).
  { intros v [<-|[<-|[<-|[]]]]; reflexivity. }
  destruct (H Hn) as (Hle & _ & _).
  split; [vm_compute; reflexivity|].
  apply (Hle (euro 60)). right. right. left. reflexivity.
Defined.

(* ===================================================================== *)
(** ** Cycles of a run *)
(* ===================================================================== *)

Lemma answers_extraction cfg data g :
  answers cfg (Resolved data) = true <-> extraction_succeeds cfg data g.
Proof.
  unfold answers, extraction_succeeds, extract, bind, read_amount, when,
    modify, throw, ret.
  destruct (fare_amount data 0) as [e|a0]; cbn; [split; discriminate|].
  destruct (oneWay cfg); cbn; [split; reflexivity|].
  destruct (fare_amount data 1) as [e|a1]; cbn; split;
    try discriminate; reflexivity.
Qed.

(** What a cycle of a run computes from: the amounts just extracted. *)
Lemma reachable_cycle cfg g data :
  reachable cfg g ->
  extraction_succeeds cfg data g ->
  let c := classify cfg (extracted cfg data g) in
  exists a0,
    fare_amount data 0 = inr a0 /\
    lowestOutboundFare c = to_number a0 /\
    outboundFareDiff c = js_sub (prevLowestOutboundFare g) a0 /\
    (if oneWay cfg
     then lowestReturnFare c = Num.zero /\ returnFareDiff c = Num.zero
     else exists a1,
         fare_amount data 1 = inr a1 /\
         lowestReturnFare c = to_number a1 /\
         returnFareDiff c = js_sub (prevLowestReturnFare g) a1).
Proof.
  intros Hr Hx c.
  destruct (reachable_fares_empty cfg g Hr) as [Eo Er].
  destruct (extract_success cfg data g Hx) as (a0 & H0 & Fo & Fr).
  destruct (extract_baseline cfg data g) as [Bo Br].
  exists a0. split; [exact H0|].
  subst c. unfold classify.
  cbn [lowestOutboundFare lowestReturnFare outboundFareDiff returnFareDiff].
  rewrite Fo, Eo, Bo, Br. cbn [app]. rewrite Math_min_single.
  split; [reflexivity|]. split; [reflexivity|].
  destruct (oneWay cfg); [split; reflexivity|].
  destruct Fr as (a1 & H1 & Fr). exists a1. rewrite Fr, Er. cbn [app].
  rewrite Math_min_single. repeat split; assumption.
Qed.

(** X2. In every cycle of a run both [fares] arrays start empty, so the
    reduction sees one quote per leg: the lowest outbound fare is the amount
    just read from [trips[0]] (converted to a number), and on a round trip
    the lowest return fare is the one read from [trips[1]]; no quote of an
    earlier cycle takes part. *)
Theorem lowest_fare_is_the_quote cfg g data :
  reachable cfg g ->
  extraction_succeeds cfg data g ->
  let c := classify cfg (extracted cfg data g) in
  fares_outbound g = [] /\ fares_return g = [] /\
  exists a0,
    fare_amount data 0 = inr a0 /\
    lowestOutboundFare c = to_number a0 /\
    (oneWay cfg = false ->
     exists a1,
       fare_amount data 1 = inr a1 /\ lowestReturnFare c = to_number a1).
Proof.
  intros Hr Hx c.
  destruct (reachable_fares_empty cfg g Hr) as [Eo Er].
  destruct (reachable_cycle cfg g data Hr Hx) as (a0 & H0 & Hl & _ & Hret).
  split; [exact Eo|]. split; [exact Er|].
  exists a0. split; [exact H0|]. split; [exact Hl|].
  intros Hw. rewrite Hw in Hret. destruct Hret as (a1 & H1 & Hl1 & _).
  exists a1. split; assumption.
Qed.

Lemma lowest_fare_is_the_quote_witness :
  let cfg := {| individualDealPrice := VUndefined; totalDealPrice := VUndefined;
                interval := euro 30; oneWay := false;
                isTwilioConfigured := false |} in
  let first := {| trips := [quote (euro 50); quote (euro 40)] |} in
  let second := {| trips := [quote (euro 70); quote (euro 80)] |} in
  let g := final (fetch cfg (Resolved first) initial) in
  lowestOutboundFare (classify cfg (extracted cfg second g)) = Num.of_Z 70.
Proof.
  intros cfg first second g.
  assert (Hr : reachable cfg g).
  { apply (reachable_next cfg initial (Resolved first)).
    - apply reachable_initial.
    - vm_compute. reflexivity. }
  destruct (lowest_fare_is_the_quote cfg g second Hr eq_refl)
    as (_ & _ & a0 & H0 & Hl & _).
  rewrite Hl. vm_compute in H0. injection H0 as <-. vm_compute. reflexivity.
Defined.

Lemma sub_self x :
  Num.isFinite x = true -> Num.sub x x = Num.zero.
Proof.
  destruct x as [s|s| |s m e]; try discriminate; intros _.
  - destruct s; reflexivity.
  - unfold Num.sub, SFsub. rewrite Z.sub_diag. reflexivity.
Qed.

Lemma sub_infinite_finite x y :
  Num.isInfinite x = true -> Num.isFinite y = true ->
  Num.isNaN (Num.sub x y) = false /\ Num.isFinite (Num.sub x y) = false.
Proof.
  destruct x as [sx|sx| |sx mx ex]; try discriminate;
    destruct y as [sy|sy| |sy my ey]; try discriminate; intros _ _;
      split; reflexivity.
Qed.

Lemma sub_number_finite x y :
  Num.isNaN x = false -> Num.isFinite y = true ->
  Num.isNaN (Num.sub x y) = false.
Proof.
  intros Nx Fy. destruct (Num.isFinite x) eqn:Fx.
  - apply sub_finite_not_NaN; [exact Fx|].
    destruct y; try discriminate; reflexivity.
  - apply sub_infinite_finite; [|exact Fy].
    destruct x; try discriminate; reflexivity.
Qed.

(** The deal expression reads the two lowest fares only. *)
Lemma awesome_ext cfg c c' :
  lowestOutboundFare c' = lowestOutboundFare c ->
  lowestReturnFare c' = lowestReturnFare c ->
  awesomeDealIsAwesome cfg c' = awesomeDealIsAwesome cfg c.
Proof. unfold awesomeDealIsAwesome. intros -> ->. reflexivity. Qed.

(** The state a valid, respectively invalid, cycle of a run ends in. *)
Lemma valid_cycle_state cfg g data :
  reachable cfg g ->
  extraction_succeeds cfg data g ->
  let c := classify cfg (extracted cfg data g) in
  faresAreValid c = true ->
  final (fetch cfg (Resolved data) g) =
  {| prevLowestOutboundFare := VNum (lowestOutboundFare c);
     prevLowestReturnFare := VNum (lowestReturnFare c);
     fares_outbound := []; fares_return := [] |}.
Proof.
  intros Hr Hx c Hv.
  destruct (fetch_extraction_succeeded cfg data g Hx) as [-> _].
  destruct (report_valid cfg _ Hv) as [-> _]. reflexivity.
Qed.

Lemma invalid_cycle_state cfg g data :
  reachable cfg g ->
  extraction_succeeds cfg data g ->
  faresAreValid (classify cfg (extracted cfg data g)) = false ->
  final (fetch cfg (Resolved data) g) = g /\
  trace (fetch cfg (Resolved data) g) = closing_effects cfg.
Proof.
  intros Hr Hx Hv.
  destruct (fetch_extraction_succeeded cfg data g Hx) as [-> ->].
  destruct (report_invalid cfg _ Hv) as [-> ->]. split; [|reflexivity].
  destruct (extract_baseline cfg data g) as [H1 H2].
  destruct (reachable_fares_empty cfg g Hr) as [H3 H4].
  destruct g as [po pr fo fr]. cbn in *. subst fo fr.
  unfold clear_fares. now rewrite H1, H2.
Qed.

(** X3. When a valid cycle of a run is followed by a cycle that finds the
    same finite fares, the second cycle is valid, both legs are annotated
    "no change", the state is left exactly as it was, and the alert fires
    again if and only if it fired in the first: an unchanged deal is
    announced on every cycle. *)
Theorem repeated_fares_show_no_change cfg g data :
  reachable cfg g ->
  quotes_finite cfg (Resolved data) = true ->
  faresAreValid (classify cfg (extracted cfg data g)) = true ->
  let first := fetch cfg (Resolved data) g in
  let c2 := classify cfg (extracted cfg data (final first)) in
  let second := fetch cfg (Resolved data) (final first) in
  faresAreValid c2 = true /\
  outboundFareDiffString c2 = NoChange /\
  returnFareDiffString c2 = NoChange /\
  final second = final first /\
  alert_fired (trace second) = alert_fired (trace first).
Proof.
  intros Hr Hq Hv first c2 second.
  assert (Ha : answers cfg (Resolved data) = true).
  { revert Hq. unfold quotes_finite, answers.
    destruct (fare_amount data 0); [discriminate|].
    destruct (Num.isFinite _); [|discriminate]. cbn [andb].
    destruct (oneWay cfg); [reflexivity|]. cbn [orb].
    destruct (fare_amount data 1); [discriminate|reflexivity]. }
  assert (Hx : extraction_succeeds cfg data g) by now apply answers_extraction.
  set (g1 := final first) in *.
  assert (Hr1 : reachable cfg g1).
  { subst g1 first. apply reachable_next; [exact Hr|].
    destruct (fetch_extraction_succeeded cfg data g Hx) as [_ ->].
    apply rescheduled_report. }
  assert (Hx1 : extraction_succeeds cfg data g1) by now apply answers_extraction.
  pose proof (valid_cycle_state cfg g data Hr Hx Hv) as Hg1.
  fold first in Hg1. fold g1 in Hg1.
  destruct (reachable_cycle cfg g data Hr Hx) as (a0 & H0 & Hl & _ & Hret).
  destruct (reachable_cycle cfg g1 data Hr1 Hx1)
    as (b0 & H0' & Hl' & Hd' & Hret').
  fold c2 in Hl', Hd', Hret'.
  rewrite H0 in H0'. injection H0' as <-.
  assert (F0 : Num.isFinite (to_number a0) = true).
  { revert Hq. unfold quotes_finite. rewrite H0.
    destruct (Num.isFinite (to_number a0)); [reflexivity|discriminate]. }
  assert (Hod : outboundFareDiff c2 = Num.zero).
  { rewrite Hd', Hg1. cbn [prevLowestOutboundFare]. rewrite Hl.
    apply sub_self, F0. }
  assert (Hrd : returnFareDiff c2 = Num.zero /\
                lowestReturnFare c2 =
                lowestReturnFare (classify cfg (extracted cfg data g))).
  { destruct (oneWay cfg) eqn:Hw.
    - destruct Hret as [Hz _]. destruct Hret' as [Hz' Hd1]. split; congruence.
    - destruct Hret as (a1 & H1 & Hl1 & _).
      destruct Hret' as (b1 & H1' & Hl1' & Hd1).
      rewrite H1 in H1'. injection H1' as <-.
      assert (F1 : Num.isFinite (to_number a1) = true).
      { revert Hq. unfold quotes_finite. rewrite H0, H1, F0, Hw. cbn. auto. }
      split; [|congruence].
      rewrite Hd1, Hg1. cbn [prevLowestReturnFare]. rewrite Hl1.
      apply sub_self, F1. }
  destruct Hrd as [Hrd Hlr].
  assert (Hshape : faresAreValid c2 = true /\
                   outboundFareDiffString c2 = NoChange /\
                   returnFareDiffString c2 = NoChange).
  { revert Hod Hrd. subst c2. unfold classify.
    cbn [outboundFareDiff returnFareDiff faresAreValid outboundFareDiffString
         returnFareDiffString].
    intros -> ->. repeat split; reflexivity. }
  destruct Hshape as (Hv2 & So & Sr).
  split; [exact Hv2|]. split; [exact So|]. split; [exact Sr|].
  split.
  - subst second. rewrite (valid_cycle_state cfg g1 data Hr1 Hx1 Hv2).
    fold c2. rewrite Hl', Hlr, <- Hl. symmetry. exact Hg1.
  - subst second first.
    destruct (fetch_extraction_succeeded cfg data g Hx) as [_ ->].
    destruct (fetch_extraction_succeeded cfg data g1 Hx1) as [_ ->].
    rewrite (alert_fired_valid cfg _ Hv), (alert_fired_valid cfg _ Hv2).
    fold c2. f_equal. apply awesome_ext; congruence.
Qed.

Lemma repeated_fares_show_no_change_witness :
  let cfg := {| individualDealPrice := VUndefined; totalDealPrice := euro 100;
                interval := euro 30; oneWay := false;
                isTwilioConfigured := false |} in
  let data := {| trips := [quote (euro 50); quote (euro 40)] |} in
  let g1 := final (fetch cfg (Resolved data) initial) in
  final (fetch cfg (Resolved data) g1) = g1 /\
  alert_fired (trace (fetch cfg (Resolved data) g1)) = true.
Proof.
  intros cfg data g1.
  destruct (repeated_fares_show_no_change cfg initial data
              (reachable_initial cfg) eq_refl eq_refl)
    as (_ & _ & _ & H1 & H2).
  split; [exact H1|]. unfold g1. rewrite H2. vm_compute. reflexivity.
Defined.

(* ===================================================================== *)
(** ** Runs of the polling loop *)
(* ===================================================================== *)

(** The three ways a cycle can go. *)
Lemma fetch_cases cfg r g :
  (answers cfg r = false /\
   same_baseline g (final (fetch cfg r g)) /\
   exists e, trace (fetch cfg r g) = [Log [ErrorLine e]]) \/
  (exists data,
      r = Resolved data /\ answers cfg r = true /\
      extraction_succeeds cfg data g /\
      let c := classify cfg (extracted cfg data g) in
      (faresAreValid c = true /\
       final (fetch cfg r g) = store_previous c (clear_fares (extracted cfg data g)) /\
       trace (fetch cfg r g) =
         alert_effects cfg c ++ fare_effects cfg c ++ closing_effects cfg) \/
      (faresAreValid c = false /\
       final (fetch cfg r g) = clear_fares (extracted cfg data g) /\
       trace (fetch cfg r g) = closing_effects cfg)).
Proof.
  destruct r as [message|data].
  - left. split; [reflexivity|]. rewrite fetch_rejected.
    split; [split; reflexivity|]. eexists. reflexivity.
  - destruct (answers cfg (Resolved data)) eqn:Ha.
    + right. exists data.
      assert (Hx : extraction_succeeds cfg data g)
        by now apply answers_extraction.
      split; [reflexivity|]. split; [reflexivity|]. split; [exact Hx|].
      cbv zeta.
      destruct (fetch_extraction_succeeded cfg data g Hx) as [-> ->].
      destruct (faresAreValid (classify cfg (extracted cfg data g))) eqn:Hv.
      * left. destruct (report_valid cfg _ Hv) as [-> ->]. auto.
      * right. destruct (report_invalid cfg _ Hv) as [-> ->]. auto.
    + left. split; [reflexivity|].
      destruct (settled (extract cfg data g)) as [e|[]] eqn:Hx.
      * rewrite (fetch_extraction_failed cfg data g e Hx).
        split; [apply extract_baseline|]. eexists. reflexivity.
      * apply (answers_extraction cfg data g) in Hx. congruence.
Qed.

(** A cycle arms the timer exactly when its reply answers. *)
Lemma rescheduled_answers cfg r g :
  rescheduled (trace (fetch cfg r g)) = answers cfg r.
Proof.
  destruct (fetch_cases cfg r g) as [(Ha & _ & e & Ht)|(data & -> & Ha & Hx & _)].
  - rewrite Ht, Ha. reflexivity.
  - rewrite Ha.
    destruct (fetch_extraction_succeeded cfg data g Hx) as [_ ->].
    apply rescheduled_report.
Qed.

Lemma poll_cons cfg r rest g :
  poll cfg (r :: rest) g =
  if answers cfg r
  then (fst (poll cfg rest (final (fetch cfg r g))),
        trace (fetch cfg r g) ++ snd (poll cfg rest (final (fetch cfg r g))))
  else (final (fetch cfg r g), trace (fetch cfg r g)).
Proof.
  cbn [poll]. rewrite rescheduled_answers.
  destruct (answers cfg r); [|reflexivity].
  destruct (poll cfg rest (final (fetch cfg r g))); reflexivity.
Qed.

(** A property of traces that holds of each cycle and is kept by
    concatenation holds of a whole run. *)
Lemma poll_trace_ind cfg (P : list effect -> Prop) :
  P [] ->
  (forall a b, P a -> P b -> P (a ++ b)) ->
  (forall r g, P (trace (fetch cfg r g))) ->
  forall replies g, P (snd (poll cfg replies g)).
Proof.
  intros Hnil Happ Hcycle.
  induction replies as [|r rest IH]; intros g; [exact Hnil|].
  rewrite poll_cons. destruct (answers cfg r); cbn [snd].
  - apply Happ; [apply Hcycle|apply IH].
  - apply Hcycle.
Qed.



Lemma answered_le cfg replies : answered cfg replies <= List.length replies.
Proof.
  induction replies as [|r rest IH]; cbn; [lia|].
  destruct (answers cfg r); lia.
Qed.



Lemma paired_app twilio a : forall b,
  paired twilio a -> paired twilio b -> paired twilio (a ++ b).
Proof.
  intros b Ha Hb. induction Ha; cbn [app].
  - exact Hb.
  - now apply paired_alert_text.
  - now apply paired_alert.
  - now apply paired_other.
Qed.

Lemma paired_cycle cfg r g :
  paired (isTwilioConfigured cfg) (trace (fetch cfg r g)).
Proof.
  destruct (fetch_cases cfg r g)
    as [(_ & _ & e & ->)|(data & -> & _ & _ & [(_ & _ & ->)|(_ & _ & ->)])].
  - apply paired_other; [reflexivity|constructor].
  - assert (Hrest : paired (isTwilioConfigured cfg)
                      (fare_effects cfg (classify cfg (extracted cfg data g))
                       ++ closing_effects cfg)).
    { unfold fare_effects, closing_effects.
      destruct (oneWay cfg); cbn [app];
        repeat (apply paired_other; [reflexivity|]); constructor. }
    unfold alert_effects.
    destruct (truthy (awesomeDealIsAwesome cfg _)); [|exact Hrest].
    destruct (isTwilioConfigured cfg) eqn:Ht; cbn [app].
    + apply paired_alert_text; [reflexivity|exact Hrest].
    + apply paired_alert; [reflexivity|exact Hrest].
  - unfold closing_effects.
    repeat (apply paired_other; [reflexivity|]). constructor.
Qed.

Lemma paired_no_text tr :
  paired false tr -> forall t o r, ~ In (SendTextMessage t o r) tr.
Proof.
  induction 1 as [|t' o' r' rest Ht _ _|t' o' r' rest _ _ IH|e rest He _ IH];
    intros t o r Hin.
  - destruct Hin.
  - discriminate Ht.
  - destruct Hin as [Hin|Hin]; [discriminate Hin|]. now apply (IH t o r).
  - destruct Hin as [Hin|Hin]; [|now apply (IH t o r)].
    subst e. discriminate He.
Qed.

Lemma run_paired cfg replies g :
  paired (isTwilioConfigured cfg) (snd (poll cfg replies g)).
Proof.
  apply poll_trace_ind.
  - constructor.
  - intros a b. apply paired_app.
  - apply paired_cycle.
Qed.

(** X5. Over a whole run the text messages go with the deal alerts: when
    Twilio is configured, every alert that is logged is followed at once by
    one text with the same total and fares, and no other text is sent; when
    it is not configured, no text is sent at all. *)
Theorem texts_follow_alerts cfg replies g :
  paired (isTwilioConfigured cfg) (snd (poll cfg replies g)) /\
  (isTwilioConfigured cfg = false ->
   forall t o r, ~ In (SendTextMessage t o r) (snd (poll cfg replies g))).
Proof.
  pose proof (run_paired cfg replies g) as H.
  split; [exact H|]. intros Ht. rewrite Ht in H. now apply paired_no_text.
Qed.

Lemma texts_follow_alerts_witness :
  let cfg := {| individualDealPrice := euro 30; totalDealPrice := VUndefined;
                interval := euro 30; oneWay := false;
                isTwilioConfigured := false |} in
  let deal := Resolved {| trips := [quote (euro 50); quote (euro 25)] |} in
  alert_fired (snd (poll cfg [deal; deal] initial)) = true /\
  forall t o r, ~ In (SendTextMessage t o r) (snd (poll cfg [deal; deal] initial)).
Proof.
  intros cfg deal. split; [vm_compute; reflexivity|].
  destruct (texts_follow_alerts cfg [deal; deal] initial) as [_ H].
  apply H. reflexivity.
Defined.

(** X6. Whenever a cycle logs a deal alert, its total is the sum of the two
    fares it names, and those fares are the ones the same cycle plots and
    stores as the new baseline. *)
Theorem alert_reports_the_new_baseline cfg r g lines t o rr :
  In (Log lines) (trace (fetch cfg r g)) ->
  In (DealAlert t o rr) lines ->
  t = Num.add o rr /\
  prevLowestOutboundFare (final (fetch cfg r g)) = VNum o /\
  prevLowestReturnFare (final (fetch cfg r g)) = VNum rr /\
  In (Plot o (if oneWay cfg then None else Some rr)) (trace (fetch cfg r g)).
Proof.
  intros Hin Hl.
  destruct (fetch_cases cfg r g)
    as [(_ & _ & e & Ht)|(data & -> & _ & _ & [(_ & Hf & Ht)|(_ & _ & Ht)])];
    rewrite Ht in *.
  - destruct Hin as [Hin|[]]. injection Hin as <-.
    destruct Hl as [Hl|[]]. discriminate Hl.
  - rewrite Hf. set (c := classify cfg (extracted cfg data g)) in *.
    assert (Hd : t = Num.add (lowestOutboundFare c) (lowestReturnFare c) /\
                 o = lowestOutboundFare c /\ rr = lowestReturnFare c).
    { unfold alert_effects, fare_effects, closing_effects in Hin.
      destruct (truthy (awesomeDealIsAwesome cfg c));
        destruct (isTwilioConfigured cfg); destruct (oneWay cfg);
        cbn in Hin;
        repeat match goal with
               | H : _ \/ _ |- _ => destruct H as [H|H]
               | H : False |- _ => destruct H
               | H : Log _ = Log _ |- _ => injection H as <-
               | H : _ = Log _ |- _ => discriminate H
               end;
        cbn in Hl;
        repeat match goal with
               | H : _ \/ _ |- _ => destruct H as [H|H]
               | H : False |- _ => destruct H
               | H : DealAlert _ _ _ = DealAlert _ _ _ |- _ =>
                 injection H as <- <- <-
               | H : _ = DealAlert _ _ _ |- _ => discriminate H
               end; auto. }
    destruct Hd as (-> & -> & ->).
    split; [reflexivity|]. split; [reflexivity|]. split; [reflexivity|].
    apply in_or_app. right. apply in_or_app. left.
    unfold fare_effects. destruct (oneWay cfg); right; left; reflexivity.
  - cbn in Hin.
    repeat match goal with
           | H : _ \/ _ |- _ => destruct H as [H|H]
           | H : False |- _ => destruct H
           | H : _ = Log _ |- _ => discriminate H
           end.
Qed.

Lemma alert_reports_the_new_baseline_witness :
  let cfg := {| individualDealPrice := VUndefined; totalDealPrice := euro 100;
                interval := euro 30; oneWay := false;
                isTwilioConfigured := false |} in
  let r := Resolved {| trips := [quote (euro 50); quote (euro 40)] |} in
  prevLowestOutboundFare (final (fetch cfg r initial)) = euro 50 /\
  In (Plot (Num.of_Z 50) (Some (Num.of_Z 40))) (trace (fetch cfg r initial)).
Proof.
  intros cfg r.
  destruct (alert_reports_the_new_baseline cfg r initial
              [DealAlert (Num.of_Z 90) (Num.of_Z 50) (Num.of_Z 40)]
              (Num.of_Z 90) (Num.of_Z 50) (Num.of_Z 40))
    as (_ & H1 & _ & H2).
  - left. vm_compute. reflexivity.
  - left. reflexivity.
  - split; [exact H1|exact H2].
Defined.

(* ===================================================================== *)
(** ** The baseline and the graph *)
(* ===================================================================== *)

Lemma last_plot_app p a b : last_plot p (a ++ b) = last_plot (last_plot p a) b.
Proof. unfold last_plot. apply fold_left_app. Qed.

Lemma baseline_is_cycle cfg r g p :
  baseline_is cfg g p ->
  baseline_is cfg (final (fetch cfg r g)) (last_plot p (trace (fetch cfg r g))).
Proof.
  intros Hb.
  assert (Hkeep : forall g', same_baseline g g' -> baseline_is cfg g' p).
  { intros g' [H1 H2]. unfold baseline_is in *.
    destruct p as [[o rr]|]; rewrite H1, H2; exact Hb. }
  destruct (fetch_cases cfg r g)
    as [(_ & Hs & e & ->)|(data & -> & _ & _ & [(_ & -> & ->)|(_ & -> & ->)])].
  - apply Hkeep, Hs.
  - rewrite !last_plot_app.
    set (c := classify cfg (extracted cfg data g)).
    assert (Hz : oneWay cfg = true -> lowestReturnFare c = Num.zero).
    { intros Hw. subst c. unfold classify. cbn [lowestReturnFare].
      now rewrite Hw. }
    assert (Ha : last_plot p (alert_effects cfg c) = p).
    { unfold alert_effects.
      destruct (truthy (awesomeDealIsAwesome cfg c));
        destruct (isTwilioConfigured cfg); reflexivity. }
    rewrite Ha. unfold fare_effects, closing_effects.
    destruct (oneWay cfg) eqn:Hw; unfold last_plot; cbn [fold_left];
      unfold baseline_is, store_previous;
      cbn [prevLowestOutboundFare prevLowestReturnFare]; rewrite Hw.
    + split; [reflexivity|]. split; [reflexivity|]. now rewrite Hz.
    + split; [reflexivity|]. eexists. split; reflexivity.
  - unfold closing_effects, last_plot. cbn [fold_left]. apply Hkeep.
    destruct (extract_baseline cfg data g). split; assumption.
Qed.

(** X7. At the end of any run the baseline is the last point that was
    plotted: both globals are undefined as long as nothing has been plotted,
    and afterwards they hold the outbound and return prices of the most
    recent plot (on a one-way search the return global holds the constant
    0). *)
Theorem baseline_is_the_last_plot cfg replies :
  baseline_is cfg (fst (poll cfg replies initial))
              (last_plot None (snd (poll cfg replies initial))).
Proof.
  assert (H : forall replies g p,
             baseline_is cfg g p ->
             baseline_is cfg (fst (poll cfg replies g))
                         (last_plot p (snd (poll cfg replies g)))).
  { clear replies. induction replies as [|r rest IH]; intros g p Hb.
    - exact Hb.
    - rewrite poll_cons. destruct (answers cfg r); cbn [fst snd].
      + rewrite last_plot_app. apply IH. now apply baseline_is_cycle.
      + now apply baseline_is_cycle. }
  apply H. split; reflexivity.
Qed.

Lemma baseline_is_the_last_plot_witness :
  let cfg := {| individualDealPrice := VUndefined; totalDealPrice := VUndefined;
                interval := euro 30; oneWay := false;
                isTwilioConfigured := false |} in
  let first := Resolved {| trips := [quote (euro 50); quote (euro 40)] |} in
  let bad := Resolved {| trips := [quote (VNum Num.Infinity); quote (euro 40)] |} in
  let replies := [first; bad; Rejected "ETIMEDOUT"] in
  baseline_is cfg (fst (poll cfg replies initial))
              (Some (Num.of_Z 50, Some (Num.of_Z 40))).
Proof.
  intros cfg first bad replies.
  exact (baseline_is_the_last_plot cfg replies).
Defined.

Lemma plots_match_cycle cfg r g :
  plots_match (oneWay cfg) (trace (fetch cfg r g)).
Proof.
  unfold plots_match.
  destruct (fetch_cases cfg r g)
    as [(_ & _ & e & ->)|(data & -> & _ & _ & [(_ & _ & ->)|(_ & _ & ->)])].
  - repeat constructor.
  - unfold alert_effects, fare_effects, closing_effects.
    destruct (truthy (awesomeDealIsAwesome cfg _));
      destruct (isTwilioConfigured cfg); destruct (oneWay cfg); cbn [app];
      repeat constructor.
  - repeat constructor.
Qed.

(** Replaying a trace whose plots match the kind of trip keeps the two
    curves aligned. *)
Lemma replay_aligned oneWay tr : forall gr,
  plots_match oneWay tr ->
  (if oneWay then Dashboard.return_y gr = None
   else exists ys, Dashboard.return_y gr = Some ys /\
                   List.length ys = List.length (Dashboard.outbound_y gr) /\
                   ~ In VUndefined ys) ->
  let gr' := Dashboard.replay oneWay tr gr in
  List.length (Dashboard.outbound_y gr') =
    List.length (Dashboard.outbound_y gr) + count is_plot tr /\
  (if oneWay then Dashboard.return_y gr' = None
   else exists ys, Dashboard.return_y gr' = Some ys /\
                   List.length ys = List.length (Dashboard.outbound_y gr') /\
                   ~ In VUndefined ys).
Proof.
  unfold Dashboard.replay.
  induction tr as [|e tr IH]; intros gr Hm Hg; cbn [fold_left].
  - split; [unfold count; cbn; lia|exact Hg].
  - inversion Hm as [|e' tr' He Htr]; subst.
    destruct e as [lines|o r|t o r| |d];
      try (destruct (IH gr Htr Hg) as [H1 H2]; split; [exact H1|exact H2]).
    set (gr1 := Dashboard.plot oneWay o r gr).
    assert (Hg1 : if oneWay then Dashboard.return_y gr1 = None
                  else exists ys, Dashboard.return_y gr1 = Some ys /\
                                  List.length ys =
                                  List.length (Dashboard.outbound_y gr1) /\
                                  ~ In VUndefined ys).
    { subst gr1. unfold Dashboard.plot. cbn [Dashboard.return_y Dashboard.outbound_y].
      destruct oneWay; [exact Hg|].
      destruct Hg as (ys & -> & Hlen & Hun).
      destruct r as [x|]; [|discriminate He].
      exists (ys ++ [VNum x]). split; [reflexivity|].
      rewrite !length_app, Hlen. split; [reflexivity|].
      intros Hin. apply in_app_or in Hin. destruct Hin as [Hin|[Hin|[]]];
        [now apply Hun|discriminate Hin]. }
    destruct (IH gr1 Htr Hg1) as [H1 H2]. split; [|exact H2].
    rewrite H1. subst gr1. unfold Dashboard.plot, count.
    cbn [Dashboard.outbound_y filter is_plot List.length].
    rewrite length_app. cbn [List.length]. lia.
Qed.

(** X8. Replaying the plots of any run on the dashboard's graph: the
    outbound curve gets one point per plot; on a round trip the return curve
    always has as many points as the outbound curve and none of them is
    undefined; on a one-way search there is no return curve. *)
Theorem curves_stay_aligned cfg replies g :
  let tr := snd (poll cfg replies g) in
  let gr := Dashboard.replay (oneWay cfg) tr (Dashboard.create (oneWay cfg)) in
  List.length (Dashboard.outbound_y gr) = count is_plot tr /\
  (if oneWay cfg then Dashboard.return_y gr = None
   else exists ys, Dashboard.return_y gr = Some ys /\
                   List.length ys = List.length (Dashboard.outbound_y gr) /\
                   ~ In VUndefined ys).
Proof.
  cbv zeta.
  assert (Hm : plots_match (oneWay cfg) (snd (poll cfg replies g))).
  { apply poll_trace_ind.
    - constructor.
    - intros a b Ha Hb. apply Forall_app. split; assumption.
    - apply plots_match_cycle. }
  assert (Hg : if oneWay cfg
               then Dashboard.return_y (Dashboard.create (oneWay cfg)) = None
               else exists ys,
                   Dashboard.return_y (Dashboard.create (oneWay cfg)) = Some ys /\
                   List.length ys =
                   List.length (Dashboard.outbound_y
                                  (Dashboard.create (oneWay cfg))) /\
                   ~ In VUndefined ys).
  { unfold Dashboard.create. destruct (oneWay cfg); cbn; [reflexivity|].
    exists []. repeat split. intros []. }
  destruct (replay_aligned (oneWay cfg) _ _ Hm Hg) as [H1 H2].
  split; [exact H1|exact H2].
Qed.

Lemma curves_stay_aligned_witness :
  let cfg := {| individualDealPrice := VUndefined; totalDealPrice := VUndefined;
                interval := euro 30; oneWay := false;
                isTwilioConfigured := false |} in
  let first := Resolved {| trips := [quote (euro 50); quote (euro 40)] |} in
  let bad := Resolved {| trips := [quote (VNum Num.Infinity); quote (euro 40)] |} in
  let tr := snd (poll cfg [first; bad; first] initial) in
  List.length
    (Dashboard.outbound_y
       (Dashboard.replay false tr (Dashboard.create false))) = 2.
Proof.
  intros cfg first bad tr.
  destruct (curves_stay_aligned cfg [first; bad; first] initial) as [H _].
  exact H.
Defined.

(* ===================================================================== *)
(** ** An infinite baseline *)
(* ===================================================================== *)

Lemma quotes_finite_answers cfg r :
  quotes_finite cfg r = true -> answers cfg r = true.
Proof.
  destruct r as [message|data]; [discriminate|].
  unfold quotes_finite, answers.
  destruct (fare_amount data 0); [discriminate|].
  destruct (Num.isFinite _); [|discriminate]. cbn [andb].
  destruct (oneWay cfg); [reflexivity|]. cbn [orb].
  destruct (fare_amount data 1); [discriminate|reflexivity].
Qed.

Lemma infinite_baseline_cycle cfg g data po pr :
  reachable cfg g ->
  prevLowestOutboundFare g = VNum po ->
  prevLowestReturnFare g = VNum pr ->
  Num.isNaN po = false -> Num.isNaN pr = false ->
  Num.isInfinite po = true \/
  (oneWay cfg = false /\ Num.isInfinite pr = true) ->
  quotes_finite cfg (Resolved data) = true ->
  final (fetch cfg (Resolved data) g) = g /\
  trace (fetch cfg (Resolved data) g) = closing_effects cfg.
Proof.
  intros Hr Hpo Hpr Npo Npr Hinf Hq.
  assert (Hx : extraction_succeeds cfg data g).
  { apply answers_extraction. now apply quotes_finite_answers. }
  apply invalid_cycle_state; [exact Hr|exact Hx|].
  destruct (reachable_cycle cfg g data Hr Hx) as (a0 & H0 & _ & Hd & Hret).
  set (c := classify cfg (extracted cfg data g)) in *.
  assert (F0 : Num.isFinite (to_number a0) = true).
  { revert Hq. unfold quotes_finite. rewrite H0.
    destruct (Num.isFinite (to_number a0)); [reflexivity|discriminate]. }
  assert (Hshape : forall od rd,
             outboundFareDiff c = od -> returnFareDiff c = rd ->
             Num.isNaN od = false -> Num.isNaN rd = false ->
             Num.isFinite od = false \/ Num.isFinite rd = false ->
             faresAreValid c = false).
  { subst c. unfold classify, diffs_are_numbers.
    cbn [outboundFareDiff returnFareDiff faresAreValid].
    intros od rd -> -> -> -> [-> | ->]; cbn; [reflexivity|].
    now rewrite orb_true_r. }
  rewrite Hpo in Hd. unfold js_sub in Hd. cbn [to_number] in Hd.
  assert (Nod : Num.isNaN (Num.sub po (to_number a0)) = false)
    by now apply sub_number_finite.
  destruct (oneWay cfg) eqn:Hw.
  - destruct Hret as [_ Hrd].
    destruct Hinf as [Hi|[Hc _]]; [|discriminate Hc].
    apply (Hshape _ _ Hd Hrd Nod eq_refl). left.
    now apply sub_infinite_finite.
  - destruct Hret as (a1 & H1 & _ & Hrd).
    rewrite Hpr in Hrd. unfold js_sub in Hrd. cbn [to_number] in Hrd.
    assert (F1 : Num.isFinite (to_number a1) = true).
    { revert Hq. unfold quotes_finite. rewrite H0, H1, F0, Hw. cbn. auto. }
    assert (Nrd : Num.isNaN (Num.sub pr (to_number a1)) = false)
      by now apply sub_number_finite.
    apply (Hshape _ _ Hd Hrd Nod Nrd).
    destruct Hinf as [Hi|[_ Hi]]; [left|right]; now apply sub_infinite_finite.
Qed.

(** X9. An infinite baseline never recovers by itself.  Once a run has
    stored an infinite lowest fare on a leg (which the first cycle does when
    the response lists an infinite amount), every later cycle that finds
    finite fares is invalid: over any sequence of such replies the state
    stays exactly as it was and each cycle only renders and re-arms the
    timer; nothing is logged or plotted and no alert fires. *)
Theorem infinite_baseline_sticks cfg replies g po pr :
  reachable cfg g ->
  prevLowestOutboundFare g = VNum po ->
  prevLowestReturnFare g = VNum pr ->
  Num.isNaN po = false -> Num.isNaN pr = false ->
  Num.isInfinite po = true \/
  (oneWay cfg = false /\ Num.isInfinite pr = true) ->
  forallb (quotes_finite cfg) replies = true ->
  poll cfg replies g =
  (g, List.concat (map (fun _ => closing_effects cfg) replies)).
Proof.
  intros Hr Hpo Hpr Npo Npr Hinf.
  induction replies as [|r rest IH]; intros Hall; [reflexivity|].
  cbn [forallb] in Hall. apply andb_prop in Hall. destruct Hall as [Hq Hrest].
  rewrite poll_cons, (quotes_finite_answers cfg r Hq).
  destruct r as [message|data]; [discriminate Hq|].
  destruct (infinite_baseline_cycle cfg g data po pr Hr Hpo Hpr Npo Npr Hinf Hq)
    as [-> ->].
  rewrite (IH Hrest). reflexivity.
Qed.

Lemma infinite_baseline_sticks_witness :
  let cfg := {| individualDealPrice := euro 60; totalDealPrice := euro 100;
                interval := euro 30; oneWay := false;
                isTwilioConfigured := true |} in
  let bad := Resolved {| trips := [quote (VNum Num.Infinity); quote (euro 80)] |} in
  let good := Resolved {| trips := [quote (euro 50); quote (euro 40)] |} in
  let g := final (fetch cfg bad initial) in
  fst (poll cfg [good; good; good] g) = g /\
  alert_fired (snd (poll cfg [good; good; good] g)) = false.
Proof.
  intros cfg bad good g.
  assert (Hr : reachable cfg g).
  { apply (reachable_next cfg initial bad).
    - apply reachable_initial.
    - vm_compute. reflexivity. }
  rewrite (infinite_baseline_sticks cfg [good; good; good] g
             Num.Infinity (Num.of_Z 80) Hr eq_refl eq_refl eq_refl eq_refl
             (or_introl eq_refl) eq_refl).
  split; reflexivity.
Defined.

(* ===================================================================== *)
(** ** A failure on the return leg *)
(* ===================================================================== *)

(** X10. On a round trip, when the response has the outbound fare but the
    return fare path is missing, the cycle fails after the outbound price
    was pushed: the error is logged, the baseline is untouched, but
    [fares.outbound] keeps that price and [fares.return] stays empty; the
    arrays are cleared only by the third callback, which does not run. *)
Theorem return_leg_failure_leaves_outbound_fare cfg g data a0 e :
  reachable cfg g ->
  oneWay cfg = false ->
  fare_amount data 0 = inr a0 ->
  fare_amount data 1 = inl e ->
  let out := fetch cfg (Resolved data) g in
  trace out = [Log [ErrorLine e]] /\
  fares_outbound (final out) = [a0] /\
  fares_return (final out) = [] /\
  same_baseline g (final out).
Proof.
  intros Hr Hw H0 H1 out.
  destruct (reachable_fares_empty cfg g Hr) as [Eo Er].
  assert (Hx : extract cfg data g =
               {| settled := inl e; final := push_outbound a0 g; trace := [] |}).
  { unfold extract, bind, read_amount, when, modify, throw, ret.
    rewrite H0. cbn. rewrite Hw. cbn. rewrite H1. reflexivity. }
  subst out.
  rewrite (fetch_extraction_failed cfg data g e)
    by (rewrite Hx; reflexivity).
  unfold extracted. rewrite Hx. cbn [final trace push_outbound fares_outbound
                                      fares_return].
  rewrite Eo, Er. repeat split; reflexivity.
Qed.

Lemma return_leg_failure_leaves_outbound_fare_witness :
  let cfg := {| individualDealPrice := VUndefined; totalDealPrice := VUndefined;
                interval := euro 30; oneWay := false;
                isTwilioConfigured := false |} in
  let data := {| trips := [quote (euro 50)] |} in
  fares_outbound (final (fetch cfg (Resolved data) initial)) = [euro 50].
Proof.
  intros cfg data.
  destruct (return_leg_failure_leaves_outbound_fare cfg initial data (euro 50)
              (TypeError "dates") (reachable_initial cfg) eq_refl eq_refl
              eq_refl) as (_ & H & _).
  exact H.
Defined.

(* ===================================================================== *)
(** ** The settings panel *)
(* ===================================================================== *)








(* ===================================================================== *)
(** ** The map *)
(* ===================================================================== *)

Lemma mark_airport_spec from to st a :
  let st1 := mark_airport from to st a in
  Map.markers st1 =
    Map.markers st
    ++ (if is_endpoint from to a then [marker_for from a] else []) /\
  Map.blink st1 = Map.blink st || is_endpoint from to a /\
  Map.on_map st1 = Map.on_map st /\
  (is_endpoint from to a = false -> st1 = st).
Proof.
  unfold mark_airport, is_endpoint, marker_for, Map.waypoint.
  destruct (String.eqb (iata a) from); cbn [orb].
  - destruct (Map.blink st);
      cbn [Map.markers Map.blink Map.on_map];
      (split; [reflexivity|]); (split; [reflexivity|]);
      (split; [reflexivity|discriminate]).
  - destruct (String.eqb (iata a) to).
    + destruct (Map.blink st);
        cbn [Map.markers Map.blink Map.on_map];
        (split; [reflexivity|]); (split; [reflexivity|]);
        (split; [reflexivity|discriminate]).
    + rewrite app_nil_r, orb_false_r. auto.
Qed.

Lemma mark_airports_spec from to airports : forall st,
  let st' := mark_airports from to airports st in
  Map.markers st' =
    Map.markers st
    ++ map (marker_for from) (filter (is_endpoint from to) airports) /\
  Map.blink st' = Map.blink st || existsb (is_endpoint from to) airports /\
  Map.on_map st' = Map.on_map st /\
  (existsb (is_endpoint from to) airports = false -> st' = st).
Proof.
  unfold mark_airports.
  induction airports as [|a rest IH]; intros st; cbn [fold_left].
  - cbn. rewrite app_nil_r, orb_false_r. auto.
  - destruct (IH (mark_airport from to st a)) as (Hm & Hb & Ho & Hs).
    destruct (mark_airport_spec from to st a) as (Hm1 & Hb1 & Ho1 & Hs1).
    cbv zeta in *. rewrite Hm, Hb, Ho, Hm1, Hb1, Ho1.
    cbn [filter existsb].
    destruct (is_endpoint from to a); cbn [map app orb].
    + rewrite <- app_assoc, orb_true_r. cbn [app orb].
      repeat split; try reflexivity. discriminate.
    + rewrite app_nil_r, orb_false_r.
      repeat split; try reflexivity.
      intros H. rewrite (Hs H). now apply Hs1.
Qed.

(** X12. Marking the airports at startup registers, in table order, one
    marker per airport whose code is the origin or the destination, at that
    airport's coordinates: red for the origin, yellow for the destination,
    and red only for a code that is both.  The blink timer is created exactly
    when some airport matches; codes that are not in the table leave the map
    as the constructor made it, with no marker and no timer. *)
Theorem airports_are_marked from to airports :
  let st := mark_airports from to airports Map.start in
  Map.markers st = map (marker_for from) (filter (is_endpoint from to) airports) /\
  Map.blink st = existsb (is_endpoint from to) airports /\
  (forall m, In m (Map.markers st) ->
             exists a, In a airports /\
                       marker_lat m = lat a /\ marker_lon m = lon a /\
                       (marker_color m = red -> iata a = from) /\
                       (marker_color m = yellow ->
                        iata a = to /\ iata a <> from)) /\
  (from = to -> forall m, In m (Map.markers st) -> marker_color m = red) /\
  (existsb (is_endpoint from to) airports = false -> st = Map.start).
Proof.
  cbv zeta.
  destruct (mark_airports_spec from to airports Map.start) as (Hm & Hb & _ & Hs).
  cbv zeta in *. cbn [Map.start Map.markers Map.blink app orb] in Hm, Hb.
  split; [exact Hm|]. split; [exact Hb|]. split; [|split; [|exact Hs]].
  - intros m Hin. rewrite Hm in Hin. apply in_map_iff in Hin.
    destruct Hin as (a & <- & Ha). apply filter_In in Ha.
    destruct Ha as [Ha He]. exists a. split; [exact Ha|].
    unfold marker_for, is_endpoint in *.
    cbn [marker_lat marker_lon marker_color].
    split; [reflexivity|]. split; [reflexivity|].
    destruct (String.eqb_spec (iata a) from) as [E|E]; split; intros H;
      try discriminate H; try exact E.
    cbn [orb] in He. apply String.eqb_eq in He. split; assumption.
  - intros <- m Hin. rewrite Hm in Hin. apply in_map_iff in Hin.
    destruct Hin as (a & <- & Ha). apply filter_In in Ha.
    destruct Ha as [_ He]. unfold marker_for, is_endpoint in *.
    cbn [marker_color]. rewrite orb_diag in He. now rewrite He.
Qed.

Lemma airports_are_marked_witness :
  let dub := {| iata := "DUB"; lat := Num.of_Z 53; lon := Num.of_Z (-6) |} in
  let stn := {| iata := "STN"; lat := Num.of_Z 51; lon := Num.of_Z 0 |} in
  mark_airports "XXX" "YYY" [dub; stn] Map.start = Map.start.
Proof.
  intros dub stn.
  destruct (airports_are_marked "XXX" "YYY" [dub; stn]) as (_ & _ & _ & _ & H).
  apply H. reflexivity.
Defined.





(* ===================================================================== *)
(** ** More generous thresholds *)
(* ===================================================================== *)

Lemma deal_iff cfg c :
  truthy (awesomeDealIsAwesome cfg c) = true <->
  (truthy (totalDealPrice cfg) = true /\
   js_le (VNum (Num.add (lowestOutboundFare c) (lowestReturnFare c)))
         (totalDealPrice cfg) = true) \/
  (truthy (individualDealPrice cfg) = true /\
   (js_le (VNum (lowestOutboundFare c)) (individualDealPrice cfg) = true \/
    js_le (VNum (lowestReturnFare c)) (individualDealPrice cfg) = true)).
Proof.
  unfold awesomeDealIsAwesome, js_or, js_and.
  destruct (truthy (totalDealPrice cfg)) eqn:Et;
    destruct (truthy (individualDealPrice cfg)) eqn:Ei; cbn [truthy];
      try rewrite Et; try rewrite Ei;
      repeat match goal with
             | |- context [js_le ?a ?b] => destruct (js_le a b); cbn
             end; try rewrite Et; try rewrite Ei; intuition congruence.
Qed.

Lemma positive_below x y :
  Num.ltb Num.zero x = true -> Num.leb x y = true ->
  Num.ltb Num.zero y = true.
Proof.
  destruct x as [sx|sx| |sx mx ex]; try destruct sx; try discriminate;
    destruct y as [sy|sy| |sy my ey]; try destruct sy; cbn;
      try discriminate; reflexivity.
Qed.

Lemma positive_value_truthy v :
  Num.ltb Num.zero (to_number v) = true -> truthy v = true.
Proof.
  destruct v as [| |[]|x]; cbn; try discriminate; try reflexivity.
  intros H. now apply positive_truthy.
Qed.

Lemma generous_le v v' x :
  at_least_as_generous v v' ->
  truthy v = true -> js_le (VNum x) v = true ->
  truthy v' = true /\ js_le (VNum x) v' = true.
Proof.
  intros [Hf|[Hp Hle]] Ht Hx; [congruence|].
  unfold js_le in *. cbn [to_number] in *. split.
  - apply positive_value_truthy. eapply positive_below; eassumption.
  - eapply leb_trans; eassumption.
Qed.

Lemma generous_deal cfg cfg' c :
  at_least_as_generous (totalDealPrice cfg) (totalDealPrice cfg') ->
  at_least_as_generous (individualDealPrice cfg) (individualDealPrice cfg') ->
  truthy (awesomeDealIsAwesome cfg c) = true ->
  truthy (awesomeDealIsAwesome cfg' c) = true.
Proof.
  intros Gt Gi H. apply deal_iff in H. apply deal_iff.
  destruct H as [[Ht Hle]|[Hi [Hle|Hle]]].
  - left. eapply generous_le; eassumption.
  - right. destruct (generous_le _ _ _ Gi Hi Hle). auto.
  - right. destruct (generous_le _ _ _ Gi Hi Hle). auto.
Qed.

(** What of a cycle depends on the kind of trip only. *)
Lemma cycle_same_trip cfg cfg' r g :
  oneWay cfg' = oneWay cfg ->
  answers cfg' r = answers cfg r /\
  final (fetch cfg' r g) = final (fetch cfg r g) /\
  (forall data, extracted cfg' data g = extracted cfg data g) /\
  (forall g0, classify cfg' g0 = classify cfg g0).
Proof.
  intros Hw.
  assert (Hc : forall g0, classify cfg' g0 = classify cfg g0).
  { intros g0. unfold classify. now rewrite Hw. }
  assert (He : forall data, extract cfg' data g = extract cfg data g).
  { intros data. unfold extract. now rewrite Hw. }
  assert (Hx : forall data, extracted cfg' data g = extracted cfg data g).
  { intros data. unfold extracted. now rewrite He. }
  assert (Ha : answers cfg' r = answers cfg r).
  { unfold answers. now rewrite Hw. }
  split; [exact Ha|]. split; [|split; [exact Hx|exact Hc]].
  destruct r as [message|data]; [reflexivity|].
  destruct (settled (extract cfg data g)) as [e|[]] eqn:Es.
  - rewrite (fetch_extraction_failed cfg data g e Es).
    rewrite (fetch_extraction_failed cfg' data g e) by now rewrite He.
    cbn [final]. apply Hx.
  - assert (Es' : extraction_succeeds cfg' data g).
    { unfold extraction_succeeds. now rewrite He. }
    destruct (fetch_extraction_succeeded cfg data g Es) as [-> _].
    destruct (fetch_extraction_succeeded cfg' data g Es') as [-> _].
    destruct (report_run cfg' (extracted cfg' data g)) as (_ & -> & _).
    destruct (report_run cfg (extracted cfg data g)) as (_ & -> & _).
    cbv zeta. now rewrite Hx, Hc.
Qed.

(** Whether a cycle fires the alert. *)
Lemma alert_fired_cycle cfg data g :
  alert_fired (trace (fetch cfg (Resolved data) g)) =
  answers cfg (Resolved data)
  && faresAreValid (classify cfg (extracted cfg data g))
  && truthy (awesomeDealIsAwesome cfg (classify cfg (extracted cfg data g))).
Proof.
  destruct (fetch_cases cfg (Resolved data) g)
    as [(Ha & _ & e & Ht)|(d & Hd & Ha & Hx & Hcases)].
  - rewrite Ht, Ha. reflexivity.
  - injection Hd as <-. rewrite Ha. cbn [andb].
    destruct (fetch_extraction_succeeded cfg data g Hx) as [_ ->].
    destruct (faresAreValid (classify cfg (extracted cfg data g))) eqn:Hv.
    + now rewrite (alert_fired_valid cfg _ Hv).
    + now destruct (report_invalid cfg _ Hv) as [_ ->].
Qed.

(** X14. The thresholds, the interval and the Twilio setting never influence
    the state of a run: two configurations for the same kind of trip reach
    the same baseline on the same replies.  And a more generous
    configuration, one whose thresholds are each at least the positive
    threshold they replace (or replace one that is off), fires an alert on
    every run on which the original configuration fires one. *)
Theorem generous_thresholds_keep_alerts cfg cfg' replies g :
  oneWay cfg' = oneWay cfg ->
  fst (poll cfg' replies g) = fst (poll cfg replies g) /\
  (at_least_as_generous (totalDealPrice cfg) (totalDealPrice cfg') ->
   at_least_as_generous (individualDealPrice cfg) (individualDealPrice cfg') ->
   alert_fired (snd (poll cfg replies g)) = true ->
   alert_fired (snd (poll cfg' replies g)) = true).
Proof.
  intros Hw. revert g.
  induction replies as [|r rest IH]; intros g.
  - split; [reflexivity|]. cbn. discriminate.
  - rewrite !poll_cons.
    destruct (cycle_same_trip cfg cfg' r g Hw) as (Ha & Hf & Hx & Hc).
    rewrite Ha, Hf.
    assert (Hcycle :
              at_least_as_generous (totalDealPrice cfg) (totalDealPrice cfg') ->
              at_least_as_generous (individualDealPrice cfg)
                                   (individualDealPrice cfg') ->
              alert_fired (trace (fetch cfg r g)) = true ->
              alert_fired (trace (fetch cfg' r g)) = true).
    { intros Gt Gi. destruct r as [message|data]; [discriminate|].
      rewrite !alert_fired_cycle, Ha, Hx, Hc.
      intros H. apply andb_prop in H. destruct H as [H1 H2].
      rewrite H1. cbn [andb]. now apply (generous_deal cfg cfg'). }
    destruct (IH (final (fetch cfg r g))) as [If Ia].
    destruct (answers cfg r); cbn [fst snd].
    + split; [exact If|]. intros Gt Gi.
      rewrite !alert_fired_app. intros H. apply orb_prop in H.
      destruct H as [H|H].
      * now rewrite (Hcycle Gt Gi H).
      * rewrite (Ia Gt Gi H). apply orb_true_r.
    + split; [reflexivity|exact Hcycle].
Qed.

Lemma generous_thresholds_keep_alerts_witness :
  let cfg := {| individualDealPrice := VUndefined; totalDealPrice := euro 100;
                interval := euro 30; oneWay := false;
                isTwilioConfigured := false |} in
  let cfg' := {| individualDealPrice := euro 10; totalDealPrice := euro 120;
                 interval := euro 5; oneWay := false;
                 isTwilioConfigured := true |} in
  let replies := [Resolved {| trips := [quote (euro 50); quote (euro 40)] |}] in
  alert_fired (snd (poll cfg' replies initial)) = true.
Proof.
  intros cfg cfg' replies.
  destruct (generous_thresholds_keep_alerts cfg cfg' replies initial eq_refl)
    as [_ H].
  apply H.
  - right. split; reflexivity.
  - left. reflexivity.
  - reflexivity.
Defined.

(* ===================================================================== *)
(** ** The timer delay *)
(* ===================================================================== *)

Lemma identical_eq x y : identical x y = true -> x = y.
Proof.
  destruct x as [s|s| |s m e]; destruct y as [s'|s'| |s' m' e'];
    cbn [identical]; try discriminate; try reflexivity.
  - intros H. apply Bool.eqb_prop in H. now subst.
  - intros H. apply Bool.eqb_prop in H. now subst.
  - intros H. apply andb_prop in H. destruct H as [H He].
    apply andb_prop in H. destruct H as [Hs Hm].
    apply Bool.eqb_prop in Hs. apply Pos.eqb_eq in Hm. apply Z.eqb_eq in He.
    now subst.
Qed.

(** X15. For every whole number of minutes from 0 up to a day (1440), the
    delay handed to [setTimeout], [interval * TIME_MIN], is exactly that many
    minutes in milliseconds: the binary64 product is not rounded. *)
Theorem whole_minute_delay_is_exact n :
  (0 <= n <= 1440)%Z ->
  js_mul (euro n) (VNum TIME_MIN) = Num.of_Z (n * 60000).
Proof.
  intros Hn.
  assert (Hall : forallb
                   (fun k => identical
                               (js_mul (euro (Z.of_nat k)) (VNum TIME_MIN))
                               (Num.of_Z (Z.of_nat k * 60000)))
                   (seq 0 (Z.to_nat 1441)) = true).
  { vm_compute. reflexivity. }
  rewrite forallb_forall in Hall.
  specialize (Hall (Z.to_nat n)).
  rewrite Z2Nat.id in Hall by lia.
  apply identical_eq, Hall, in_seq. lia.
Qed.

Lemma whole_minute_delay_is_exact_witness :
  js_mul (euro 30) (VNum TIME_MIN) = Num.of_Z 1800000.
Proof. apply (whole_minute_delay_is_exact 30). lia. Defined.
